(** * The statement framework of the scheduler: conditions built from an
      [observe] function (redengine/core/condition/statement.py).

    The development embeds the classes [Statement], [Comparable] and
    [Historical] over an explicit store: statement objects and their
    [kwargs] dictionaries live in a heap, because [copy], [set_params]
    and [Historical.get_kwargs] mutate and alias them. *)

From Stdlib Require Import ZArith QArith Ascii String List Bool Lia.
From stdpp Require Import base option list strings gmap fin_maps.

Set Warnings "-register-all".
Local Open Scope Z_scope.
Local Open Scope string_scope.

(** ** Python values *)

Module Py.

(** The objects that flow through [args], [kwargs] and observations.
    A finite float is the rational it denotes (only its comparisons
    are used); [VObj] is an opaque object (a task, say) known by its
    identity and with the comparison slots of [object]; [VStmt] is a
    reference to a statement object of the store.  What a statement
    answers to [bool] and to a comparison is decided by its own
    methods over the store, not here: the functions of this module
    give no answer ([None]) where one of them would have to run. *)
Inductive value : Type :=
  | VNone
  | VNotImplemented
  | VBool (b : bool)
  | VInt (z : Z)
  | VFloat (q : Q)
  | VStr (s : string)
  | VList (l : list value)
  | VObj (id : nat)
  | VStmt (ref : nat).

(** Exception classes, each with its base class. *)
Inductive exn_class : Type :=
  | BaseException
  | Exception
  | KeyboardInterrupt
  | SystemExit
  | ImportError
  | ModuleNotFoundError
  | TypeError
  | ValueError
  | KeyError
  | AttributeError
  | UserDefined (name : string) (base : exn_class).

#[global] Instance exn_class_eq_dec : EqDecision exn_class.
Proof. solve_decision. Defined.

Fixpoint mro (c : exn_class) : list exn_class :=
  c :: match c with
       | BaseException => []
       | Exception | KeyboardInterrupt | SystemExit => [BaseException]
       | ImportError | TypeError | ValueError | KeyError | AttributeError =>
           [Exception; BaseException]
       | ModuleNotFoundError => [ImportError; Exception; BaseException]
       | UserDefined _ base => mro base
       end.

Record exn : Type := MkExn { exn_type : exn_class; exn_message : string }.

(** [isinstance(e, c)] *)
Definition isinstance (e : exn) (c : exn_class) : bool :=
  bool_decide (c ∈ mro (exn_type e)).

(** The outcome of running Python code: a value, or a raised exception. *)
Inductive result (A : Type) : Type :=
  | Ok (a : A)
  | Raise (e : exn).
Arguments Ok {A} a.
Arguments Raise {A} e.

(** [bool(v)]; [NotImplemented] is truthy (Python up to 3.13).  The
    truth of a statement is a whole evaluation: no answer here. *)
Definition truthy (v : value) : option bool :=
  match v with
  | VNone => Some false
  | VNotImplemented => Some true
  | VBool b => Some b
  | VInt z => Some (negb (z =? 0)%Z)
  | VFloat q => Some (negb (Qeq_bool q 0))
  | VStr s => Some (negb (String.eqb s ""))
  | VList l => Some (match l with [] => false | _ => true end)
  | VObj _ => Some true
  | VStmt _ => None
  end.

(** [hasattr(v, "__len__")] and [len(v)] *)
Definition len (v : value) : option nat :=
  match v with
  | VStr s => Some (String.length s)
  | VList l => Some (List.length l)
  | _ => None
  end.

Inductive cmpop : Type := Eq_ | Ne_ | Lt_ | Gt_ | Le_ | Ge_.

(** The operator tried on the right operand when the left one gives up. *)
Definition reflected (op : cmpop) : cmpop :=
  match op with
  | Eq_ => Eq_ | Ne_ => Ne_
  | Lt_ => Gt_ | Gt_ => Lt_
  | Le_ => Ge_ | Ge_ => Le_
  end.

Definition of_comparison (op : cmpop) (c : comparison) : bool :=
  match op, c with
  | Eq_, Eq => true | Eq_, _ => false
  | Ne_, Eq => false | Ne_, _ => true
  | Lt_, Lt => true | Lt_, _ => false
  | Gt_, Gt => true | Gt_, _ => false
  | Le_, Gt => false | Le_, _ => true
  | Ge_, Lt => false | Ge_, _ => true
  end.

(** The number a numeric object denotes ([bool] is a subclass of [int]). *)
Definition as_int (v : value) : option Z :=
  match v with
  | VBool b => Some (if b then 1 else 0)%Z
  | VInt z => Some z
  | _ => None
  end.

Definition as_number (v : value) : option Q :=
  match v with
  | VFloat q => Some q
  | _ => inject_Z <$> as_int v
  end.

(** [a is b] for the objects that have an identity in the model. *)
Definition is_ (a b : value) : bool :=
  match a, b with
  | VNone, VNone => true
  | VNotImplemented, VNotImplemented => true
  | VObj i, VObj j => Nat.eqb i j
  | VStmt i, VStmt j => Nat.eqb i j
  | _, _ => false
  end.

(** [getattr(a, "__op__")(b)] for every type but [list]: the slot of
    the type of [a], which answers [NotImplemented] for operands it
    does not know (a statement among them).  The slots of a statement
    are the methods of its class: no answer here. *)
Definition magic_flat (op : cmpop) (a b : value) : option value :=
  match a with
  | VBool _ | VInt _ =>
      match as_int a, as_int b with
      | Some x, Some y => Some (VBool (of_comparison op (x ?= y)%Z))
      | _, _ => Some VNotImplemented
      end
  | VFloat x =>
      match as_number b with
      | Some y => Some (VBool (of_comparison op (x ?= y)%Q))
      | None => Some VNotImplemented
      end
  | VStr s =>
      match b with
      | VStr t => Some (VBool (of_comparison op (String.compare s t)))
      | _ => Some VNotImplemented
      end
  | VList _ => Some VNotImplemented
  | VNone | VNotImplemented | VObj _ =>
      match op with
      | Eq_ => Some (if is_ a b then VBool true else VNotImplemented)
      | Ne_ => Some (if is_ a b then VBool false else VNotImplemented)
      | _ => Some VNotImplemented
      end
  | VStmt _ => None
  end.

Definition type_name (v : value) : string :=
  match v with
  | VNone => "NoneType"
  | VNotImplemented => "NotImplementedType"
  | VBool _ => "bool"
  | VInt _ => "int"
  | VFloat _ => "float"
  | VStr _ => "str"
  | VList _ => "list"
  | VObj _ => "object"
  | VStmt _ => "Statement"
  end.

Definition op_symbol (op : cmpop) : string :=
  match op with
  | Eq_ => "==" | Ne_ => "!=" | Lt_ => "<" | Gt_ => ">"
  | Le_ => "<=" | Ge_ => ">="
  end.

(** The error of an operator that neither operand supports, from the
    names of their types. *)
Definition unsupported (op : cmpop) (v w : string) : exn :=
  MkExn TypeError
    ("'" ++ op_symbol op ++ "' not supported between instances of '"
       ++ v ++ "' and '" ++ w ++ "'").

Definition not_supported (op : cmpop) (a b : value) : exn :=
  unsupported op (type_name a) (type_name b).

(** What is left of [a op b] once both slots answered [NotImplemented]. *)
Definition fallback (op : cmpop) (a b : value) : result value :=
  match op with
  | Eq_ => Ok (VBool (is_ a b))
  | Ne_ => Ok (VBool (negb (is_ a b)))
  | _ => Raise (not_supported op a b)
  end.

(** [==] and [!=] on two lists of different lengths are decided by
    the lengths alone. *)
Definition early_out (op : cmpop) (la lb : list value) : bool :=
  match op with
  | Eq_ | Ne_ => negb (Nat.eqb (List.length la) (List.length lb))
  | _ => false
  end.

(** Two lists from their first items on, given the comparison of two
    items: the first pair of items that are neither the same object nor
    equal decides ([==] and [!=] at once, the others by comparing the
    two items), else the lengths do. *)
Definition compare_items
    (compare : cmpop → value → value → option (result value))
    (op : cmpop) : list value → list value → option (result value) :=
  fix items (la lb : list value) {struct la} : option (result value) :=
    match la, lb with
    | x :: la', y :: lb' =>
        if is_ x y then items la' lb'
        else
          match compare Eq_ x y with
          | Some (Ok v) =>
              match truthy v with
              | Some true => items la' lb'
              | Some false =>
                  match op with
                  | Eq_ => Some (Ok (VBool false))
                  | Ne_ => Some (Ok (VBool true))
                  | _ => compare op x y
                  end
              | None => None
              end
          | other => other
          end
    | _, _ =>
        Some (Ok (VBool (of_comparison op
                           (Nat.compare (List.length la)
                                        (List.length lb)))))
    end.

(** [a op b], the comparison operator: the slot of [a], then the
    reflected slot of [b], then the fallback; two lists are compared
    item by item.  There is no answer where a statement would have to
    compare itself. *)
Fixpoint compare (op : cmpop) (a b : value) {struct a}
  : option (result value) :=
  match a, b with
  | VList la, VList lb =>
      if early_out op la lb
      then Some (Ok (VBool (match op with Ne_ => true | _ => false end)))
      else compare_items compare op la lb
  | _, _ =>
      match magic_flat op a b with
      | Some VNotImplemented =>
          match magic_flat (reflected op) b a with
          | Some VNotImplemented => Some (fallback op a b)
          | Some v => Some (Ok v)
          | None => None
          end
      | Some v => Some (Ok v)
      | None => None
      end
  end.

(** [getattr(a, "__op__")(b)]: the slot alone, nothing reflected. *)
Definition magic (op : cmpop) (a b : value) : option (result value) :=
  match a, b with
  | VList _, VList _ => compare op a b
  | _, _ => Ok <$> magic_flat op a b
  end.

(** [a == b] as a truth value. *)
Definition eqb (a b : value) : option bool :=
  match compare Eq_ a b with
  | Some (Ok v) => truthy v
  | _ => None
  end.

(** The equality of two items of a container: the same object, or
    equal objects. *)
Definition item_eq (a b : value) : option bool :=
  if is_ a b then Some true else eqb a b.

(** [a == b] on two tuples: the first pair of items that are not
    equal decides, else the lengths do. *)
Fixpoint tuple_eq (la lb : list value) : option bool :=
  match la, lb with
  | [], [] => Some true
  | x :: la', y :: lb' =>
      match item_eq x y with
      | Some true => tuple_eq la' lb'
      | other => other
      end
  | _, _ => Some false
  end.

End Py.

Import Py.

(** ** The store *)

(** [kwargs] dictionaries: keys are strings, the order of insertion is
    not observed by anything in this file but [Comparable._to_bool],
    which fixes its own order. *)
Abbreviation dict := (gmap string value).

Inductive level : Type := DEBUG | INFO | WARNING | ERROR | CRITICAL.

(** A call made on [logger]. *)
Record log_record : Type := MkLog {
  levelname : level;
  message : string;
  exc_info : option exn
}.

(** redengine.core.time.base is not among the sources: [TimePeriod], its
    [rollback] and its [==] are parameters of the development. *)
Record interval : Type := MkInterval { left : value; right : value }.

Section Statements.

Context {TimePeriod : Type}.
Variable rollback : TimePeriod → Z → interval.
Variable TimePeriod_eq : TimePeriod → TimePeriod → bool.

(** A statement class, as [type(...)] builds it in [from_func]: its
    identity, the statement classes it derives from, its [__name__],
    the class attributes [name] and [_use_global_params], whether
    [Historical] and [Comparable] are among its bases, and [observe], a
    function of the arguments it is called with. *)
Record stmt_class : Type := MkClass {
  cls_id : nat;
  cls_supers : list nat;
  cls_typename : string;
  cls_name : option string;
  cls_historical : bool;
  cls_comparable : bool;
  cls_use_global_params : bool;
  cls_observe : list value → dict → result value
}.

(** The instance attributes of a statement; [kwargs] is a reference to
    a dictionary of the store, [period] is [None] unless the class is
    historical and was given one. *)
Record stmt_obj : Type := MkStmt {
  st_class : stmt_class;
  st_args : list value;
  st_kwargs : nat;
  st_period : option TimePeriod
}.

Record state : Type := MkState {
  objs : list stmt_obj;
  dicts : list dict;
  log : list log_record
}.

(** What an evaluation reads and does not write: the session the
    statement is bound to and the wall clock. *)
Record world : Type := MkWorld {
  session_parameters : dict;
  config_debug : bool;
  now : Z
}.

(** Computations over the store.  [None] is no answer: the store is
    not well formed (a reference to nothing), which Python code never
    sees, or the code leaves what is modelled, which is the truth or a
    comparison of a statement that is itself an observation or an item
    of [args] or [kwargs] ([observe] is documented to return a boolean,
    a number or an iterable). *)
Definition M (A : Type) : Type := state → option (result A * state).

Definition ret {A} (a : A) : M A := fun σ => Some (Ok a, σ).
Definition raise {A} (e : exn) : M A := fun σ => Some (Raise e, σ).
Definition fault {A} : M A := fun _ => None.

Definition bind {A B} (m : M A) (k : A → M B) : M B :=
  fun σ => match m σ with
           | Some (Ok a, σ') => k a σ'
           | Some (Raise e, σ') => Some (Raise e, σ')
           | None => None
           end.

Definition lift {A} (r : result A) : M A := fun σ => Some (r, σ).

Definition lift_option {A} (r : option (result A)) : M A :=
  fun σ => match r with
           | Some r => Some (r, σ)
           | None => None
           end.

(** [try: m  except BaseException as e: h e] *)
Definition try_except {A} (m : M A) (h : exn → M A) : M A :=
  fun σ => match m σ with
           | Some (Raise e, σ') => h e σ'
           | r => r
           end.

Notation "'let!' x ':=' m 'in' k" := (bind m (fun x => k))
  (at level 10, x name, m at level 100, k at level 200).

Definition get_obj (r : nat) : M stmt_obj :=
  fun σ => match objs σ !! r with
           | Some o => Some (Ok o, σ)
           | None => None
           end.

Definition set_obj (r : nat) (o : stmt_obj) : M unit :=
  fun σ => if decide (r < length (objs σ))%nat
           then Some (Ok tt, MkState (<[r := o]> (objs σ)) (dicts σ) (log σ))
           else None.

Definition alloc_obj (o : stmt_obj) : M nat :=
  fun σ => Some (Ok (length (objs σ)),
                 MkState (objs σ ++ [o]) (dicts σ) (log σ)).

Definition get_dict (d : nat) : M dict :=
  fun σ => match dicts σ !! d with
           | Some kw => Some (Ok kw, σ)
           | None => None
           end.

Definition set_dict (d : nat) (kw : dict) : M unit :=
  fun σ => if decide (d < length (dicts σ))%nat
           then Some (Ok tt, MkState (objs σ) (<[d := kw]> (dicts σ)) (log σ))
           else None.

Definition alloc_dict (kw : dict) : M nat :=
  fun σ => Some (Ok (length (dicts σ)),
                 MkState (objs σ) (dicts σ ++ [kw]) (log σ)).

(** [d[key] = v] *)
Definition dict_setitem (d : nat) (key : string) (v : value) : M unit :=
  let! kw := get_dict d in set_dict d (<[key := v]> kw).

(** [d.update(new)] *)
Definition dict_update (d : nat) (new : dict) : M unit :=
  let! kw := get_dict d in set_dict d (new ∪ kw).

(** [logger.exception(msg)] inside the handler of [exc] *)
Definition logger_exception (msg : string) (exc : exn) : M unit :=
  fun σ => Some (Ok tt,
                 MkState (objs σ) (dicts σ)
                         (log σ ++ [MkLog ERROR msg (Some exc)])).

(** Modelled from the spec: [Parameters.__or__] of the session's
    parameters ("merged into kwargs ... task-local kwargs win on
    collision"), the union in which the right operand wins. *)
Definition dict_or (a b : dict) : dict := b ∪ a.

(** ** Statement *)

(** The class [Statement] itself. *)
Definition Statement : stmt_class :=
  {| cls_id := 0;
     cls_supers := [];
     cls_typename := "Statement";
     cls_name := None;
     cls_historical := false;
     cls_comparable := false;
     cls_use_global_params := false;
     cls_observe := fun _ _ => Ok (VBool true) |}.

(** [type(name, bases, attrs)] with the bases and attributes that
    [from_func] collects; [id] is the identity of the new class and
    [name] is [func.__name__]. *)
Definition new_class (cls : stmt_class) (id : nat) (name : string)
    (func : list value → dict → result value)
    (historical quantitative use_globals : bool) : stmt_class :=
  {| cls_id := id;
     cls_supers := cls_id cls :: cls_supers cls;
     cls_typename := name;
     cls_name := cls_name cls;
     cls_historical := historical || cls_historical cls;
     cls_comparable := quantitative || cls_comparable cls;
     cls_use_global_params := use_globals;
     cls_observe := func |}.

(** [cls.from_func(func, historical=, quantitative=, use_globals=)].
    The bases are [Historical], [Comparable] and [cls] in this order,
    and [type] refuses a base listed before a class derived from it. *)
Definition from_func (cls : stmt_class) (id : nat) (name : string)
    (func : list value → dict → result value)
    (historical quantitative use_globals : bool) : result stmt_class :=
  if (historical && cls_historical cls)
     || (quantitative && cls_comparable cls)
  then Raise (MkExn TypeError
                "Cannot create a consistent method resolution order (MRO)")
  else Ok (new_class cls id name func historical quantitative use_globals).

(** A call of the class with [period=period], that is
    [Statement.__init__] and [Historical.__init__]: a new object with a
    new dictionary.
    [period] is [None] when the call names no period.  A period given
    to a class that is not historical would be one more item of
    [kwargs], and the dictionaries of this development hold no time
    period: no answer. *)
Definition new_statement (cls : stmt_class) (args : list value)
    (period : option TimePeriod) (kwargs : dict) : M nat :=
  match period with
  | Some _ =>
      if cls_historical cls then
        let! d := alloc_dict kwargs in
        alloc_obj (MkStmt cls args d period)
      else fault
  | None =>
      let! d := alloc_dict kwargs in
      alloc_obj (MkStmt cls args d None)
  end.

(** [Statement.get_kwargs] *)
Definition Statement_get_kwargs (w : world) (self : nat) : M nat :=
  let! o := get_obj self in
  if cls_use_global_params (st_class o) then
    let! kw := get_dict (st_kwargs o) in
    alloc_dict (dict_or (session_parameters w) kw)
  else ret (st_kwargs o).

(** [Historical.get_kwargs]; [super()] is [Comparable.get_kwargs] or
    [Statement.get_kwargs], and the former only calls the latter. *)
Definition Historical_get_kwargs (w : world) (self : nat) : M nat :=
  let! kwargs := Statement_get_kwargs w self in
  let! o := get_obj self in
  match st_period o with
  | None => ret kwargs
  | Some period =>
      let dt := now w in
      let interval := rollback period dt in
      let start := left interval in
      let end_ := right interval in
      let! _ := dict_setitem kwargs "_start_" start in
      let! _ := dict_setitem kwargs "_end_" end_ in
      ret kwargs
  end.

(** [self.get_kwargs()], resolved along the bases of the class. *)
Definition get_kwargs (w : world) (self : nat) : M nat :=
  let! o := get_obj self in
  if cls_historical (st_class o) then Historical_get_kwargs w self
  else Statement_get_kwargs w self.

(** [Statement._to_bool] *)
Definition Statement_to_bool (self : nat) (res : value) : M value :=
  match truthy res with
  | Some b => ret (VBool b)
  | None => fault
  end.

(** The names [Comparable._to_bool] looks for, in its order. *)
Definition comparison_keys : list string :=
  ["_eq_"; "_ne_"; "_lt_"; "_gt_"; "_le_"; "_ge_"].

(** [getattr(res, comp)] for the method names that can occur. *)
Definition getattr (res : value) (comp : string)
  : result (value → option (result value)) :=
  if String.eqb comp "__eq__" then Ok (magic Eq_ res)
  else if String.eqb comp "__ne__" then Ok (magic Ne_ res)
  else if String.eqb comp "__lt__" then Ok (magic Lt_ res)
  else if String.eqb comp "__gt__" then Ok (magic Gt_ res)
  else if String.eqb comp "__le__" then Ok (magic Le_ res)
  else if String.eqb comp "__ge__" then Ok (magic Ge_ res)
  else Raise (MkExn AttributeError comp).

(** [all(getattr(res, comp)(val) for comp, val in comps.items())] *)
Fixpoint all_comps (res : value) (comps : list (string * value))
  : option (result value) :=
  match comps with
  | [] => Some (Ok (VBool true))
  | (comp, val) :: comps' =>
      match getattr res comp with
      | Ok method =>
          match method val with
          | Some (Ok v) =>
              match truthy v with
              | Some true => all_comps res comps'
              | Some false => Some (Ok (VBool false))
              | None => None
              end
          | Some (Raise e) => Some (Raise e)
          | None => None
          end
      | Raise e => Some (Raise e)
      end
  end.

(** [Comparable._to_bool] *)
Definition Comparable_to_bool (self : nat) (res : value) : M value :=
  match res with
  | VBool _ => Statement_to_bool self res
  | _ =>
      let res := match len res with
                 | Some n => VInt (Z.of_nat n)
                 | None => res
                 end in
      let! o := get_obj self in
      let! kwargs := get_dict (st_kwargs o) in
      let comps :=
        omap (fun comp => (fun val => ("_" ++ comp ++ "_", val))
                            <$> kwargs !! comp)
             comparison_keys in
      match comps with
      | [] => lift_option (compare Gt_ res (VInt 0))
      | _ => lift_option (all_comps res comps)
      end
  end.

(** [self._to_bool(res)] *)
Definition to_bool (self : nat) (res : value) : M value :=
  let! o := get_obj self in
  if cls_comparable (st_class o) then Comparable_to_bool self res
  else Statement_to_bool self res.

(** [str(self)]: the class attribute [name] is formatted as it is. *)
Definition Statement_str (self : nat) : M string :=
  let! o := get_obj self in
  let name := match cls_name (st_class o) with
              | Some n => n
              | None => "None"
              end in
  ret ("< Statement '" ++ name ++ "'>").

(** [Statement.__bool__] *)
Definition Statement_bool (w : world) (self : nat) : M value :=
  try_except
    (let! o := get_obj self in
     let! kwargs := get_kwargs w self in
     let! kw := get_dict kwargs in
     let! outcome := lift (cls_observe (st_class o) (st_args o) kw) in
     to_bool self outcome)
    (fun exc =>
       if isinstance exc KeyboardInterrupt || isinstance exc ImportError
       then raise exc
       else if isinstance exc Exception then
         let! s := Statement_str self in
         let! _ := logger_exception
                     ("Statement '" ++ s ++ "' is False due to an Exception.")
                     exc in
         if config_debug w then raise exc else ret (VBool false)
       else raise exc).

(** [Statement.set_params] *)
Definition set_params (self : nat) (args : list value) (kwargs : dict)
  : M unit :=
  let! o := get_obj self in
  let! _ := set_obj self
              (MkStmt (st_class o) (st_args o ++ args) (st_kwargs o)
                      (st_period o)) in
  let! o := get_obj self in
  dict_update (st_kwargs o) kwargs.

(** [Statement.copy]: [copy(self)] is a new object with the attributes
    of [self]; the dictionary is copied, the tuple is kept. *)
Definition copy (self : nat) : M nat :=
  let! o := get_obj self in
  let! new := alloc_obj o in
  let! n := get_obj new in
  let! kw := get_dict (st_kwargs n) in
  let! d := alloc_dict kw in
  let! _ := set_obj new (MkStmt (st_class n) (st_args n) d (st_period n)) in
  let! n := get_obj new in
  let! _ := set_obj new
              (MkStmt (st_class n) (st_args n) (st_kwargs n) (st_period n)) in
  ret new.

(** [Comparable._set_comparison] *)
Definition set_comparison (self : nat) (key : string) (val : value)
  : M value :=
  let! obj := copy self in
  let! o := get_obj obj in
  let! _ := dict_setitem (st_kwargs o) key val in
  ret (VStmt obj).

(** ** Equality *)

(** [isinstance(other, type(self))] *)
Definition isinstance_of (other : value) (cls : stmt_class) : M bool :=
  match other with
  | VStmt r =>
      let! o := get_obj r in
      ret (bool_decide
             (cls_id cls ∈ cls_id (st_class o) :: cls_supers (st_class o)))
  | _ => ret false
  end.

(** [isinstance(other, Comparable)] *)
Definition isinstance_Comparable (other : value) : M bool :=
  match other with
  | VStmt r => let! o := get_obj r in ret (cls_comparable (st_class o))
  | _ => ret false
  end.

(** [a == b] on two tuples of arguments. *)
Definition args_eq (a b : list value) : option bool := tuple_eq a b.

(** Whether the value of an item of [a] equals the value of [b] at the
    item's key. *)
Definition same_item (b : dict) (item : string * value) : option bool :=
  match b !! item.1 with
  | Some v => item_eq item.2 v
  | None => Some false
  end.

(** [a == b] on two dictionaries: as many items, and every key of [a]
    is in [b] with an equal value.  The order in which Python meets the
    items is not kept here, so there is an answer only when every
    comparison of two values has one. *)
Definition dict_eq (a b : dict) : option bool :=
  if bool_decide (size a = size b)
  then forallb id <$> mapM (same_item b) (map_to_list a)
  else Some false.

(** [self.period == other.period]; a period never equals [None]. *)
Definition period_eq (p q : option TimePeriod) : bool :=
  match p, q with
  | None, None => true
  | Some x, Some y => TimePeriod_eq x y
  | _, _ => false
  end.

(** [x and b] where [b] is a boolean. *)
Definition and_ (x : value) (b : bool) : M value :=
  match truthy x with
  | Some t => ret (if t then VBool b else x)
  | None => fault
  end.

(** [Statement.__eq__] *)
Definition Statement_eq (self : nat) (other : value) : M value :=
  let! s := get_obj self in
  let! is_same_class := isinstance_of other (st_class s) in
  if is_same_class then
    match other with
    | VStmt r =>
        let! o := get_obj r in
        let! has_same_args :=
          lift_option (Ok <$> args_eq (st_args s) (st_args o)) in
        let! skw := get_dict (st_kwargs s) in
        let! okw := get_dict (st_kwargs o) in
        let! has_same_kwargs := lift_option (Ok <$> dict_eq skw okw) in
        ret (VBool (has_same_args && has_same_kwargs))
    | _ => fault
    end
  else ret (VBool false).

(** [Comparable.__eq__]; [super()] is [Statement]. *)
Definition Comparable_eq (self : nat) (other : value) : M value :=
  let! is_same_class := isinstance_Comparable other in
  if is_same_class then Statement_eq self other
  else set_comparison self "_eq_" other.

(** [Historical.__eq__]; [super()] is [Comparable] when the class is
    comparable and [Statement] otherwise. *)
Definition Historical_eq (self : nat) (other : value) : M value :=
  let! s := get_obj self in
  let super_eq := if cls_comparable (st_class s) then Comparable_eq
                  else Statement_eq in
  let! is_same_class := isinstance_of other (st_class s) in
  if is_same_class then
    match other with
    | VStmt r =>
        let! o := get_obj r in
        let has_same_period := period_eq (st_period s) (st_period o) in
        let! same := super_eq self other in
        and_ same has_same_period
    | _ => fault
    end
  else super_eq self other.

(** [type(self).__eq__(self, other)], the method resolved along the
    bases of the class; the operator [==] is [richcmp] below. *)
Definition eq_ (self : nat) (other : value) : M value :=
  let! s := get_obj self in
  if cls_historical (st_class s) then Historical_eq self other
  else if cls_comparable (st_class s) then Comparable_eq self other
  else Statement_eq self other.

(** ** The comparison operators *)

(** [Comparable.__ne__] *)
Definition Comparable_ne (self : nat) (other : value) : M value :=
  set_comparison self "_ne_" other.

(** [Comparable.__lt__] *)
Definition Comparable_lt (self : nat) (other : value) : M value :=
  set_comparison self "_lt_" other.

(** [Comparable.__gt__] *)
Definition Comparable_gt (self : nat) (other : value) : M value :=
  set_comparison self "_gt_" other.

(** [Comparable.__le__] *)
Definition Comparable_le (self : nat) (other : value) : M value :=
  set_comparison self "_le_" other.

(** [Comparable.__ge__] *)
Definition Comparable_ge (self : nat) (other : value) : M value :=
  set_comparison self "_ge_" other.

(** [object.__ne__], which a class without [Comparable] inherits: the
    negation of what [__eq__] answers, unless that is
    [NotImplemented]. *)
Definition object_ne (self : nat) (other : value) : M value :=
  let! res := eq_ self other in
  match res with
  | VNotImplemented => ret VNotImplemented
  | _ =>
      match truthy res with
      | Some b => ret (VBool (negb b))
      | None => fault
      end
  end.

(** [type(self).__op__(self, other)]: the method that the class of
    [self] has for the operator.  [Comparable] defines all six,
    [Historical] and [Statement] define [__eq__] only and have the
    others from [object]. *)
Definition method (op : cmpop) (self : nat) (other : value) : M value :=
  let! s := get_obj self in
  if cls_comparable (st_class s) then
    match op with
    | Eq_ => eq_ self other
    | Ne_ => Comparable_ne self other
    | Lt_ => Comparable_lt self other
    | Gt_ => Comparable_gt self other
    | Le_ => Comparable_le self other
    | Ge_ => Comparable_ge self other
    end
  else
    match op with
    | Eq_ => eq_ self other
    | Ne_ => object_ne self other
    | _ => ret VNotImplemented
    end.

(** [type(other)] is a subclass of [type(self)] and not that class. *)
Definition proper_subclass (other self : stmt_class) : bool :=
  negb (Nat.eqb (cls_id other) (cls_id self))
  && bool_decide (cls_id self ∈ cls_id other :: cls_supers other).

(** [type(v).__name__] *)
Definition typename_of (v : value) : M string :=
  match v with
  | VStmt r => let! o := get_obj r in ret (cls_typename (st_class o))
  | _ => ret (type_name v)
  end.

(** [self op other] with a statement on the left.  When the class of
    [other] is a proper subclass of the class of [self] its reflected
    method is asked first; then the method of [self]; then the
    reflected method of [other] if it was not asked; when all of them
    answer [NotImplemented], [==] and [!=] compare identities and the
    others raise [TypeError]. *)
Definition richcmp (op : cmpop) (self : nat) (other : value) : M value :=
  let! s := get_obj self in
  let! checked_reverse_op :=
    match other with
    | VStmt r =>
        let! o := get_obj r in
        ret (proper_subclass (st_class o) (st_class s))
    | _ => ret false
    end in
  let reverse_op :=
    match other with
    | VStmt r => method (reflected op) r (VStmt self)
    | _ => lift_option (Ok <$> magic_flat (reflected op) other (VStmt self))
    end in
  let! res := if checked_reverse_op then reverse_op
              else ret VNotImplemented in
  match res with
  | VNotImplemented =>
      let! res := method op self other in
      match res with
      | VNotImplemented =>
          let! res := if checked_reverse_op then ret VNotImplemented
                      else reverse_op in
          match res with
          | VNotImplemented =>
              match op with
              | Eq_ => ret (VBool (is_ (VStmt self) other))
              | Ne_ => ret (VBool (negb (is_ (VStmt self) other)))
              | _ =>
                  let! v := typename_of (VStmt self) in
                  let! w := typename_of other in
                  raise (unsupported op v w)
              end
          | _ => ret res
          end
      | _ => ret res
      end
  | _ => ret res
  end.

(** The key under which an operator is kept. *)
Definition operator_key (op : cmpop) : string :=
  match op with
  | Eq_ => "_eq_" | Ne_ => "_ne_" | Lt_ => "_lt_"
  | Gt_ => "_gt_" | Le_ => "_le_" | Ge_ => "_ge_"
  end.

(** ** What an evaluation passes to [observe] *)

(** [self] is a statement of the store and its dictionary is there. *)
Definition live (σ : state) (self : nat) (o : stmt_obj) (kw : dict) : Prop :=
  objs σ !! self = Some o ∧ dicts σ !! st_kwargs o = Some kw.

(** The two keys a period adds. *)
Definition with_period (w : world) (o : stmt_obj) (kw : dict) : dict :=
  match st_period o with
  | None => kw
  | Some period =>
      <["_end_" := right (rollback period (now w))]>
        (<["_start_" := left (rollback period (now w))]> kw)
  end.

(** The keyword arguments [observe] is called with. *)
Definition passed_kwargs (w : world) (o : stmt_obj) (kw : dict) : dict :=
  let base := if cls_use_global_params (st_class o)
              then dict_or (session_parameters w) kw else kw in
  if cls_historical (st_class o) then with_period w o base else base.

(** Where [get_kwargs] leaves them: in a new dictionary when the
    session's parameters are merged in, in the statement's own
    dictionary otherwise. *)
Definition passed_ref (σ : state) (o : stmt_obj) : nat :=
  if cls_use_global_params (st_class o) then length (dicts σ)
  else st_kwargs o.

Definition after_get_kwargs (w : world) (σ : state) (o : stmt_obj)
    (kw : dict) : state :=
  MkState (objs σ)
          (if cls_use_global_params (st_class o)
           then dicts σ ++ [passed_kwargs w o kw]
           else <[st_kwargs o := passed_kwargs w o kw]> (dicts σ))
          (log σ).

(** The handler of [Statement.__bool__], named for the statements below. *)
Definition on_exception (w : world) (self : nat) (exc : exn) : M value :=
  if isinstance exc KeyboardInterrupt || isinstance exc ImportError
  then raise exc
  else if isinstance exc Exception then
    let! s := Statement_str self in
    let! _ := logger_exception
                ("Statement '" ++ s ++ "' is False due to an Exception.")
                exc in
    if config_debug w then raise exc else ret (VBool false)
  else raise exc.

(** [str(self)] as a function of the object. *)
Definition str_of (o : stmt_obj) : string :=
  "< Statement '"
    ++ match cls_name (st_class o) with Some n => n | None => "None" end
    ++ "'>".

(** The record [logger.exception] leaves for a failed statement. *)
Definition failure_record (o : stmt_obj) (exc : exn) : log_record :=
  MkLog ERROR
    ("Statement '" ++ str_of o ++ "' is False due to an Exception.")
    (Some exc).

Lemma lookup_lt_live {A} (l : list A) (i : nat) (x : A) :
  l !! i = Some x → (i < length l)%nat.
Proof. intros H. apply lookup_lt_is_Some. eauto. Qed.

Lemma get_obj_live σ self o :
  objs σ !! self = Some o → get_obj self σ = Some (Ok o, σ).
Proof. intros H. unfold get_obj. by rewrite H. Qed.

Lemma get_dict_live σ d kw :
  dicts σ !! d = Some kw → get_dict d σ = Some (Ok kw, σ).
Proof. intros H. unfold get_dict. by rewrite H. Qed.

Lemma set_dict_live σ d kw kw' :
  dicts σ !! d = Some kw →
  set_dict d kw' σ
  = Some (Ok tt, MkState (objs σ) (<[d := kw']> (dicts σ)) (log σ)).
Proof.
  intros H. unfold set_dict.
  destruct (decide _) as [|Hn]; [done|].
  exfalso. apply Hn. by eapply lookup_lt_live.
Qed.

Lemma dict_setitem_live σ d kw key v :
  dicts σ !! d = Some kw →
  dict_setitem d key v σ
  = Some (Ok tt,
          MkState (objs σ) (<[d := <[key := v]> kw]> (dicts σ)) (log σ)).
Proof.
  intros H. unfold dict_setitem, bind.
  rewrite (get_dict_live _ _ _ H). by rewrite (set_dict_live _ _ _ _ H).
Qed.

Lemma Statement_get_kwargs_spec w σ self o kw :
  live σ self o kw →
  Statement_get_kwargs w self σ
  = Some (Ok (passed_ref σ o),
          if cls_use_global_params (st_class o)
          then MkState (objs σ)
                       (dicts σ ++ [dict_or (session_parameters w) kw])
                       (log σ)
          else σ).
Proof.
  intros [Ho Hd]. unfold Statement_get_kwargs, passed_ref, bind.
  rewrite (get_obj_live _ _ _ Ho).
  destruct (cls_use_global_params (st_class o)); [|done].
  by rewrite (get_dict_live _ _ _ Hd).
Qed.

Lemma get_kwargs_spec w σ self o kw :
  live σ self o kw →
  get_kwargs w self σ
  = Some (Ok (passed_ref σ o), after_get_kwargs w σ o kw)
  ∧ dicts (after_get_kwargs w σ o kw) !! passed_ref σ o
    = Some (passed_kwargs w o kw).
Proof.
  intros [Ho Hd]. pose proof (lookup_lt_live _ _ _ Hd) as Hlt.
  assert (Hlook : dicts (after_get_kwargs w σ o kw) !! passed_ref σ o
                  = Some (passed_kwargs w o kw)).
  { unfold after_get_kwargs, passed_ref. simpl.
    destruct (cls_use_global_params (st_class o)).
    - by rewrite lookup_app_r, Nat.sub_diag.
    - by apply list_lookup_insert_eq. }
  split; [|exact Hlook].
  unfold get_kwargs, bind at 1. rewrite (get_obj_live _ _ _ Ho).
  unfold after_get_kwargs, passed_kwargs, passed_ref in *.
  destruct (cls_historical (st_class o)) eqn:Hh.
  - unfold Historical_get_kwargs, bind at 1.
    rewrite (Statement_get_kwargs_spec w σ self o kw (conj Ho Hd)).
    unfold passed_ref, with_period.
    destruct (cls_use_global_params (st_class o)) eqn:Hg.
    + unfold bind at 1. erewrite get_obj_live by (simpl; exact Ho).
      destruct (st_period o) as [p|]; [|done].
      unfold bind.
      erewrite dict_setitem_live
        by (simpl; by rewrite lookup_app_r, Nat.sub_diag).
      erewrite dict_setitem_live
        by (simpl; rewrite list_lookup_insert_eq;
            [done | rewrite length_app; simpl; lia]).
      simpl. rewrite list_insert_insert_eq.
      by rewrite insert_app_r_alt, Nat.sub_diag by lia.
    + unfold bind at 1. erewrite get_obj_live by (simpl; exact Ho).
      destruct (st_period o) as [p|].
      * unfold bind.
        erewrite dict_setitem_live by done.
        erewrite dict_setitem_live
          by (simpl; by rewrite list_lookup_insert_eq).
        simpl. by rewrite list_insert_insert_eq.
      * unfold ret. destruct σ. simpl in *. by rewrite list_insert_id.
  - rewrite (Statement_get_kwargs_spec w σ self o kw (conj Ho Hd)).
    unfold passed_ref.
    destruct (cls_use_global_params (st_class o)); [done|].
    destruct σ. simpl in *. by rewrite list_insert_id.
Qed.

(** ** Evaluation *)

(** What [__bool__] does once the keyword arguments are there. *)
Definition observe_and_convert (w : world) (self : nat) (o : stmt_obj)
    (kw : dict) : M value :=
  try_except
    (let! outcome :=
       lift (cls_observe (st_class o) (st_args o) (passed_kwargs w o kw)) in
     to_bool self outcome)
    (on_exception w self).

Lemma Statement_bool_spec w σ self o kw :
  live σ self o kw →
  Statement_bool w self σ
  = observe_and_convert w self o kw (after_get_kwargs w σ o kw).
Proof.
  intros Hl. destruct (get_kwargs_spec w σ self o kw Hl) as [Hk Hd].
  destruct Hl as [Ho _].
  unfold Statement_bool, observe_and_convert, try_except, bind.
  rewrite (get_obj_live _ _ _ Ho), Hk.
  by rewrite (get_dict_live _ _ _ Hd).
Qed.

Lemma objs_after_get_kwargs w σ o kw :
  objs (after_get_kwargs w σ o kw) = objs σ.
Proof. done. Qed.

Lemma log_after_get_kwargs w σ o kw :
  log (after_get_kwargs w σ o kw) = log σ.
Proof. done. Qed.

Lemma to_bool_spec σ self o res :
  objs σ !! self = Some o →
  to_bool self res σ
  = if cls_comparable (st_class o) then Comparable_to_bool self res σ
    else Statement_to_bool self res σ.
Proof.
  intros Ho. unfold to_bool, bind. rewrite (get_obj_live _ _ _ Ho).
  by destruct (cls_comparable (st_class o)).
Qed.

Lemma Statement_str_spec σ self o :
  objs σ !! self = Some o →
  Statement_str self σ = Some (Ok (str_of o), σ).
Proof.
  intros Ho. unfold Statement_str, bind. by rewrite (get_obj_live _ _ _ Ho).
Qed.

(** The handler on an exception that the first clause lets through. *)
Lemma on_exception_let_through w self exc σ :
  isinstance exc KeyboardInterrupt || isinstance exc ImportError = true →
  on_exception w self exc σ = Some (Raise exc, σ).
Proof. intros H. unfold on_exception. by rewrite H. Qed.

(** The handler on an exception of the second clause. *)
Lemma on_exception_logged w self o exc σ :
  objs σ !! self = Some o →
  isinstance exc KeyboardInterrupt = false →
  isinstance exc ImportError = false →
  isinstance exc Exception = true →
  on_exception w self exc σ
  = Some (if config_debug w then Raise exc else Ok (VBool false),
          MkState (objs σ) (dicts σ) (log σ ++ [failure_record o exc])).
Proof.
  intros Ho Hk Hi He. unfold on_exception. rewrite Hk, Hi, He. simpl.
  unfold bind. rewrite (Statement_str_spec _ _ _ Ho).
  unfold logger_exception, failure_record.
  by destruct (config_debug w).
Qed.

Lemma observe_and_convert_raise w self o kw e σ :
  cls_observe (st_class o) (st_args o) (passed_kwargs w o kw) = Raise e →
  observe_and_convert w self o kw σ = on_exception w self e σ.
Proof.
  intros H. unfold observe_and_convert, try_except, bind, lift.
  by rewrite H.
Qed.

(** ** The failure policy of [__bool__] *)

(** C6: when [observe] raises a [KeyboardInterrupt] or an [ImportError]
    (or an instance of a subclass), [bool(s)] raises that exception
    whatever [config.debug] is, and nothing is logged. *)
Theorem bool_reraises_interrupt_and_import w σ self o kw e :
  live σ self o kw →
  cls_observe (st_class o) (st_args o) (passed_kwargs w o kw) = Raise e →
  isinstance e KeyboardInterrupt || isinstance e ImportError = true →
  Statement_bool w self σ = Some (Raise e, after_get_kwargs w σ o kw)
  ∧ log (after_get_kwargs w σ o kw) = log σ.
Proof.
  intros Hl Hobs Hcls. split; [|done].
  rewrite (Statement_bool_spec _ _ _ _ _ Hl).
  rewrite (observe_and_convert_raise _ _ _ _ _ _ Hobs).
  by apply on_exception_let_through.
Qed.

(** C1, amended: when [observe] raises an instance of [Exception] that
    is neither a [KeyboardInterrupt] nor an [ImportError], the exception
    is logged at error level; then [bool(s)] is [False], unless
    [config.debug] is set, in which case the exception propagates. *)
Theorem bool_false_on_exception w σ self o kw e :
  live σ self o kw →
  cls_observe (st_class o) (st_args o) (passed_kwargs w o kw) = Raise e →
  isinstance e Exception = true →
  isinstance e KeyboardInterrupt = false →
  isinstance e ImportError = false →
  Statement_bool w self σ
  = Some (if config_debug w then Raise e else Ok (VBool false),
          MkState (objs σ) (dicts (after_get_kwargs w σ o kw))
                  (log σ ++ [failure_record o e])).
Proof.
  intros Hl Hobs He Hk Hi.
  rewrite (Statement_bool_spec _ _ _ _ _ Hl).
  rewrite (observe_and_convert_raise _ _ _ _ _ _ Hobs).
  destruct Hl as [Ho _].
  by rewrite (on_exception_logged w self o e (after_get_kwargs w σ o kw)
                Ho Hk Hi He).
Qed.

(** ** Conversion of the observation *)

(** C10: on a comparable statement a plain boolean observation is the
    result, whatever relational operators the keyword arguments hold
    ([kw] is arbitrary). *)
Theorem comparable_bool_passthrough w σ self o kw b :
  live σ self o kw →
  cls_comparable (st_class o) = true →
  to_bool self (VBool b) σ = Some (Ok (VBool b), σ)
  ∧ (cls_observe (st_class o) (st_args o) (passed_kwargs w o kw)
     = Ok (VBool b) →
     Statement_bool w self σ
     = Some (Ok (VBool b), after_get_kwargs w σ o kw)).
Proof.
  intros Hl Hc.
  assert (Hto : ∀ σ', objs σ' !! self = Some o →
                      to_bool self (VBool b) σ' = Some (Ok (VBool b), σ')).
  { intros σ' Ho'. rewrite (to_bool_spec _ _ _ _ Ho'). by rewrite Hc. }
  split; [apply Hto, Hl|].
  intros Hobs. rewrite (Statement_bool_spec _ _ _ _ _ Hl).
  unfold observe_and_convert, try_except, bind, lift. rewrite Hobs.
  rewrite Hto; [done|]. rewrite objs_after_get_kwargs. apply Hl.
Qed.

(** ** Keyword arguments *)

(** C5: a historical statement with a period rolls the period back from
    the clock and calls [observe] with the left end of the interval
    under [_start_] and the right end under [_end_]. *)
Theorem historical_passes_period_bounds w σ self o kw period :
  live σ self o kw →
  cls_historical (st_class o) = true →
  st_period o = Some period →
  passed_kwargs w o kw !! "_start_"
    = Some (left (rollback period (now w)))
  ∧ passed_kwargs w o kw !! "_end_"
    = Some (right (rollback period (now w)))
  ∧ Statement_bool w self σ
    = observe_and_convert w self o kw (after_get_kwargs w σ o kw).
Proof.
  intros Hl Hh Hp. split; [|split].
  - unfold passed_kwargs, with_period. rewrite Hh, Hp.
    rewrite lookup_insert_ne by done. by rewrite lookup_insert_eq.
  - unfold passed_kwargs, with_period. rewrite Hh, Hp.
    by rewrite lookup_insert_eq.
  - by apply Statement_bool_spec.
Qed.

(** C4, amended: with [use_globals] the keyword arguments of the call
    are the session's parameters merged under the statement's own
    keyword arguments, which win on a collision; a historical statement
    with a period then sets [_start_] and [_end_] on top of the merge. *)
Theorem globals_merged_under_kwargs w σ self o kw :
  live σ self o kw →
  cls_use_global_params (st_class o) = true →
  let merged := dict_or (session_parameters w) kw in
  (∀ key v, kw !! key = Some v → merged !! key = Some v)
  ∧ (∀ key, kw !! key = None →
            merged !! key = session_parameters w !! key)
  ∧ passed_kwargs w o kw
    = (if cls_historical (st_class o) then with_period w o merged
       else merged)
  ∧ Statement_bool w self σ
    = observe_and_convert w self o kw (after_get_kwargs w σ o kw)
  ∧ dicts (after_get_kwargs w σ o kw) !! st_kwargs o = Some kw.
Proof.
  intros Hl Hg merged. subst merged. unfold dict_or.
  split; [|split; [|split; [|split]]].
  - intros key v Hk. by apply lookup_union_Some_l.
  - intros key Hk. by apply lookup_union_r.
  - unfold passed_kwargs. by rewrite Hg.
  - by apply Statement_bool_spec.
  - unfold after_get_kwargs. rewrite Hg. simpl.
    destruct Hl as [_ Hd]. by apply lookup_app_l_Some.
Qed.

(** C7: without [use_globals] an evaluation does not read the session's
    parameters: two worlds that differ in them only give the same
    result and the same store. *)
Theorem bool_independent_of_parameters params1 params2 debug clock σ self o :
  objs σ !! self = Some o →
  cls_use_global_params (st_class o) = false →
  Statement_bool (MkWorld params1 debug clock) self σ
  = Statement_bool (MkWorld params2 debug clock) self σ.
Proof.
  intros Ho Hg.
  assert (Hs : ∀ w, Statement_get_kwargs w self σ
                    = Some (Ok (st_kwargs o), σ)).
  { intros w. unfold Statement_get_kwargs, bind.
    by rewrite (get_obj_live _ _ _ Ho), Hg. }
  assert (Hk : get_kwargs (MkWorld params1 debug clock) self σ
               = get_kwargs (MkWorld params2 debug clock) self σ).
  { unfold get_kwargs, bind. rewrite (get_obj_live _ _ _ Ho).
    destruct (cls_historical (st_class o)); [|by rewrite !Hs].
    unfold Historical_get_kwargs, bind. by rewrite !Hs. }
  unfold Statement_bool, try_except, bind.
  rewrite (get_obj_live _ _ _ Ho), Hk.
  done.
Qed.

(** ** Copies *)

Lemma set_obj_live σ r o o' :
  objs σ !! r = Some o →
  set_obj r o' σ
  = Some (Ok tt, MkState (<[r := o']> (objs σ)) (dicts σ) (log σ)).
Proof.
  intros H. unfold set_obj.
  destruct (decide _) as [|Hn]; [done|].
  exfalso. apply Hn. by eapply lookup_lt_live.
Qed.

Lemma lookup_snoc {A} (l : list A) (x : A) :
  ((l ++ [x])%list) !! length l = Some x.
Proof. by rewrite lookup_app_r, Nat.sub_diag. Qed.

Lemma insert_snoc {A} (l : list A) (x y : A) :
  <[length l := y]> ((l ++ [x])%list) = (l ++ [y])%list.
Proof. by rewrite insert_app_r_alt, Nat.sub_diag by lia. Qed.

(** The copy is a new object with a new dictionary of the same items. *)
Lemma copy_spec σ self o kw :
  live σ self o kw →
  copy self σ
  = Some (Ok (length (objs σ)),
          MkState (objs σ ++ [MkStmt (st_class o) (st_args o)
                                     (length (dicts σ)) (st_period o)])
                  (dicts σ ++ [kw]) (log σ)).
Proof.
  intros [Ho Hd]. unfold copy, bind at 1.
  rewrite (get_obj_live _ _ _ Ho).
  unfold bind at 1, alloc_obj.
  unfold bind at 1. erewrite get_obj_live by (simpl; apply lookup_snoc).
  unfold bind at 1.
  erewrite get_dict_live by (simpl; exact Hd).
  unfold bind at 1, alloc_dict. simpl.
  unfold bind at 1.
  erewrite set_obj_live by (simpl; apply lookup_snoc). simpl.
  rewrite insert_snoc.
  unfold bind at 1. erewrite get_obj_live by (simpl; apply lookup_snoc).
  unfold bind. erewrite set_obj_live by (simpl; apply lookup_snoc). simpl.
  by rewrite insert_snoc.
Qed.

Lemma set_params_spec σ self o kw args kwargs :
  live σ self o kw →
  set_params self args kwargs σ
  = Some (Ok tt,
          MkState (<[self := MkStmt (st_class o) (st_args o ++ args)
                                    (st_kwargs o) (st_period o)]> (objs σ))
                  (<[st_kwargs o := kwargs ∪ kw]> (dicts σ)) (log σ)).
Proof.
  intros [Ho Hd]. pose proof (lookup_lt_live _ _ _ Ho) as Hlt.
  unfold set_params, bind at 1. rewrite (get_obj_live _ _ _ Ho).
  unfold bind at 1. rewrite (set_obj_live _ _ _ _ Ho).
  unfold bind at 1.
  erewrite get_obj_live by (simpl; by apply list_lookup_insert_eq).
  unfold dict_update, bind. simpl.
  erewrite get_dict_live by (simpl; exact Hd).
  by erewrite set_dict_live by (simpl; exact Hd).
Qed.

(** C8: re-parameterising the copy of a statement leaves the statement
    as it was, its arguments and the items of its dictionary; the copy
    has the added positional arguments and the added bindings. *)
Theorem copy_set_params_frame σ self o kw args kwargs :
  live σ self o kw →
  ∃ new σ1 σ2 n,
    copy self σ = Some (Ok new, σ1)
    ∧ set_params new args kwargs σ1 = Some (Ok tt, σ2)
    ∧ live σ2 self o kw
    ∧ new ≠ self
    ∧ live σ2 new n (kwargs ∪ kw)
    ∧ st_kwargs n ≠ st_kwargs o
    ∧ st_class n = st_class o
    ∧ st_args n = (st_args o ++ args)%list
    ∧ (∀ key v, kwargs !! key = Some v → (kwargs ∪ kw) !! key = Some v)
    ∧ (∀ key, kwargs !! key = None → (kwargs ∪ kw) !! key = kw !! key).
Proof.
  intros Hl. pose proof Hl as [Ho Hd].
  pose proof (lookup_lt_live _ _ _ Ho) as Hlo.
  pose proof (lookup_lt_live _ _ _ Hd) as Hld.
  set (c := MkStmt (st_class o) (st_args o) (length (dicts σ)) (st_period o)).
  set (n := MkStmt (st_class o) (st_args o ++ args) (length (dicts σ))
                   (st_period o)).
  set (σ1 := MkState (objs σ ++ [c]) (dicts σ ++ [kw]) (log σ)).
  set (σ2 := MkState (objs σ ++ [n]) (dicts σ ++ [kwargs ∪ kw]) (log σ)).
  assert (Hl1 : live σ1 (length (objs σ)) c kw).
  { split; simpl; apply lookup_snoc. }
  exists (length (objs σ)), σ1, σ2, n.
  split; [by apply copy_spec|].
  split.
  { rewrite (set_params_spec σ1 _ c kw _ _ Hl1). subst σ1 σ2 n c. simpl.
    by rewrite !insert_snoc. }
  split; [split; simpl; by apply lookup_app_l_Some|].
  split; [lia|].
  split; [split; simpl; apply lookup_snoc|].
  split; [simpl; lia|].
  split; [done|]. split; [done|].
  split.
  - intros key v Hk. by apply lookup_union_Some_l.
  - intros key Hk. by apply lookup_union_r.
Qed.

(** ** Equality of statements *)

(** [isinstance(other, cls)] for a statement [other] of the store. *)
Definition is_instance (other : stmt_obj) (cls : stmt_class) : bool :=
  bool_decide
    (cls_id cls ∈ cls_id (st_class other) :: cls_supers (st_class other)).

Lemma isinstance_of_spec σ r o cls :
  objs σ !! r = Some o →
  isinstance_of (VStmt r) cls σ = Some (Ok (is_instance o cls), σ).
Proof.
  intros Ho. unfold isinstance_of, bind. by rewrite (get_obj_live _ _ _ Ho).
Qed.

Lemma isinstance_Comparable_spec σ r o :
  objs σ !! r = Some o →
  isinstance_Comparable (VStmt r) σ
  = Some (Ok (cls_comparable (st_class o)), σ).
Proof.
  intros Ho. unfold isinstance_Comparable, bind.
  by rewrite (get_obj_live _ _ _ Ho).
Qed.

Lemma Statement_eq_spec σ a oa kwa b ob kwb :
  live σ a oa kwa →
  live σ b ob kwb →
  Statement_eq a (VStmt b) σ
  = if is_instance ob (st_class oa)
    then match args_eq (st_args oa) (st_args ob), dict_eq kwa kwb with
         | Some x, Some y => Some (Ok (VBool (x && y)), σ)
         | _, _ => None
         end
    else Some (Ok (VBool false), σ).
Proof.
  intros [Ha Hka] [Hb Hkb]. unfold Statement_eq, bind at 1.
  rewrite (get_obj_live _ _ _ Ha).
  unfold bind at 1. rewrite (isinstance_of_spec _ _ _ _ Hb).
  destruct (is_instance ob (st_class oa)); [|done].
  unfold bind at 1. rewrite (get_obj_live _ _ _ Hb).
  unfold bind at 1, lift_option.
  destruct (args_eq (st_args oa) (st_args ob)) as [x|]; [|done]. simpl.
  unfold bind.
  rewrite (get_dict_live _ _ _ Hka), (get_dict_live _ _ _ Hkb).
  by destruct (dict_eq kwa kwb).
Qed.

Lemma set_comparison_spec σ self o kw key val :
  live σ self o kw →
  set_comparison self key val σ
  = Some (Ok (VStmt (length (objs σ))),
          MkState (objs σ ++ [MkStmt (st_class o) (st_args o)
                                     (length (dicts σ)) (st_period o)])
                  (dicts σ ++ [<[key := val]> kw]) (log σ)).
Proof.
  intros Hl. unfold set_comparison, bind at 1.
  rewrite (copy_spec _ _ _ _ Hl).
  unfold bind at 1. erewrite get_obj_live by (simpl; apply lookup_snoc).
  unfold bind. simpl.
  erewrite dict_setitem_live by (simpl; apply lookup_snoc). simpl.
  by rewrite insert_snoc.
Qed.

(** What [__eq__] answers when both statements are compared item by
    item: the arguments, the keyword arguments and, for a historical
    receiver, the periods. *)
Definition same_parameters (oa ob : stmt_obj) (kwa kwb : dict)
  : option bool :=
  match args_eq (st_args oa) (st_args ob), dict_eq kwa kwb with
  | Some x, Some y =>
      Some (x && y
            && (if cls_historical (st_class oa)
                then period_eq (st_period oa) (st_period ob)
                else true))
  | _, _ => None
  end.

(** The method [__eq__] of [a] on a statement [b], when [a] is not
    comparable or [b] is. *)
Lemma eq_method_spec σ a oa kwa b ob kwb :
  live σ a oa kwa →
  live σ b ob kwb →
  (cls_comparable (st_class oa) = true →
   cls_comparable (st_class ob) = true) →
  eq_ a (VStmt b) σ
  = if is_instance ob (st_class oa)
    then match same_parameters oa ob kwa kwb with
         | Some x => Some (Ok (VBool x), σ)
         | None => None
         end
    else Some (Ok (VBool false), σ).
Proof.
  intros Hla Hlb Hc. pose proof Hla as [Ha Hka]. pose proof Hlb as [Hb Hkb].
  assert (Hsuper :
    (if cls_comparable (st_class oa) then Comparable_eq else Statement_eq)
      a (VStmt b) σ
    = Statement_eq a (VStmt b) σ).
  { destruct (cls_comparable (st_class oa)); [|done].
    unfold Comparable_eq, bind.
    by rewrite (isinstance_Comparable_spec _ _ _ Hb), Hc. }
  pose proof (Statement_eq_spec _ _ _ _ _ _ _ Hla Hlb) as Hs.
  unfold same_parameters.
  unfold eq_, bind at 1. rewrite (get_obj_live _ _ _ Ha).
  destruct (cls_historical (st_class oa)).
  - unfold Historical_eq, bind at 1. rewrite (get_obj_live _ _ _ Ha).
    unfold bind at 1. rewrite (isinstance_of_spec _ _ _ _ Hb).
    destruct (is_instance ob (st_class oa)) eqn:Hi.
    + unfold bind. rewrite (get_obj_live _ _ _ Hb), Hsuper, Hs.
      destruct (args_eq _ _) as [x|]; [|done].
      destruct (dict_eq _ _) as [y|]; [|done].
      unfold and_, ret. simpl.
      by destruct x, y, (period_eq _ _).
    + by rewrite Hsuper, Hs.
  - assert (E : (if cls_comparable (st_class oa) then Comparable_eq a (VStmt b)
                 else Statement_eq a (VStmt b)) σ
                = Statement_eq a (VStmt b) σ).
    { by destruct (cls_comparable (st_class oa)). }
    rewrite E, Hs.
    destruct (is_instance ob (st_class oa)); [|done].
    destruct (args_eq _ _) as [x|]; [|done].
    destruct (dict_eq _ _) as [y|]; [|done].
    by rewrite andb_true_r.
Qed.

(** The method [__eq__] of a comparable [a] on a statement [b] that is
    neither comparable nor an instance of the class of [a]. *)
Lemma eq_method_builds σ a oa kwa b ob :
  live σ a oa kwa →
  objs σ !! b = Some ob →
  cls_comparable (st_class oa) = true →
  cls_comparable (st_class ob) = false →
  is_instance ob (st_class oa) = false →
  eq_ a (VStmt b) σ = set_comparison a "_eq_" (VStmt b) σ.
Proof.
  intros Hla Hb Hca Hcb Hi. pose proof Hla as [Ha Hka].
  assert (Hcmp : Comparable_eq a (VStmt b) σ
                 = set_comparison a "_eq_" (VStmt b) σ).
  { unfold Comparable_eq, bind.
    by rewrite (isinstance_Comparable_spec _ _ _ Hb), Hcb. }
  rewrite <- Hcmp.
  unfold eq_, bind at 1. rewrite (get_obj_live _ _ _ Ha), Hca.
  destruct (cls_historical (st_class oa)); [|done].
  unfold Historical_eq, bind. rewrite (get_obj_live _ _ _ Ha), Hca.
  by rewrite (isinstance_of_spec _ _ _ _ Hb), Hi.
Qed.

Lemma method_eq σ self o other :
  objs σ !! self = Some o →
  method Eq_ self other σ = eq_ self other σ.
Proof.
  intros Ho. unfold method, bind at 1. rewrite (get_obj_live _ _ _ Ho).
  by destruct (cls_comparable (st_class o)).
Qed.

(** [a == b] on two statements is what the first method asked answers,
    unless that is [NotImplemented]: the method of [b] when its class
    is a proper subclass of the class of [a], else the method of [a]. *)
Lemma richcmp_eq_first σ a oa b ob :
  objs σ !! a = Some oa →
  objs σ !! b = Some ob →
  let first := if proper_subclass (st_class ob) (st_class oa)
               then eq_ b (VStmt a) σ else eq_ a (VStmt b) σ in
  (∀ σ', first ≠ Some (Ok VNotImplemented, σ')) →
  richcmp Eq_ a (VStmt b) σ = first.
Proof.
  intros Ha Hb first Hn. subst first.
  unfold richcmp, bind at 1. rewrite (get_obj_live _ _ _ Ha).
  unfold bind at 1. unfold bind at 1. rewrite (get_obj_live _ _ _ Hb).
  unfold ret at 1.
  destruct (proper_subclass (st_class ob) (st_class oa)).
  - unfold bind at 1. simpl reflected.
    rewrite (method_eq _ _ _ _ Hb).
    destruct (eq_ b (VStmt a) σ) as [[[v|e] σ']|]; try done.
    destruct v; try done. by destruct (Hn σ').
  - unfold bind at 1, ret at 1. unfold bind at 1.
    rewrite (method_eq _ _ _ _ Ha).
    destruct (eq_ a (VStmt b) σ) as [[[v|e] σ']|]; try done.
    destruct v; try done. by destruct (Hn σ').
Qed.

Lemma proper_subclass_spec (cb ca : stmt_class) :
  proper_subclass cb ca = true
  ↔ cls_id cb ≠ cls_id ca ∧ cls_id ca ∈ cls_supers cb.
Proof.
  unfold proper_subclass.
  rewrite andb_true_iff, negb_true_iff, Nat.eqb_neq, bool_decide_eq_true.
  rewrite elem_of_cons. split.
  - intros [Hne [E|Hin]]; [by destruct Hne|done].
  - intros [Hne Hin]. split; [done|by right].
Qed.

Lemma is_instance_spec (ob : stmt_obj) (ca : stmt_class) :
  is_instance ob ca = true
  ↔ cls_id ca = cls_id (st_class ob) ∨ cls_id ca ∈ cls_supers (st_class ob).
Proof.
  unfold is_instance. by rewrite bool_decide_eq_true, elem_of_cons.
Qed.

(** No class derives from a class that derives from it. *)
Definition acyclic (ca cb : stmt_class) : Prop :=
  cls_id ca ≠ cls_id cb →
  cls_id ca ∈ cls_supers cb →
  cls_id cb ∉ cls_supers ca.

(** [a == b] on two statements that are both comparable or both not. *)
Lemma richcmp_eq_same_kind σ a oa kwa b ob kwb :
  live σ a oa kwa →
  live σ b ob kwb →
  acyclic (st_class oa) (st_class ob) →
  cls_comparable (st_class oa) = cls_comparable (st_class ob) →
  richcmp Eq_ a (VStmt b) σ
  = if Nat.eqb (cls_id (st_class oa)) (cls_id (st_class ob))
    then match same_parameters oa ob kwa kwb with
         | Some x => Some (Ok (VBool x), σ)
         | None => None
         end
    else Some (Ok (VBool false), σ).
Proof.
  intros Hla Hlb Hacyc Hc.
  pose proof Hla as [Ha Hka]. pose proof Hlb as [Hb Hkb].
  pose proof (richcmp_eq_first σ a oa b ob Ha Hb) as Hfirst.
  simpl in Hfirst.
  destruct (proper_subclass (st_class ob) (st_class oa)) eqn:Hp.
  - apply proper_subclass_spec in Hp as [Hne Hin].
    assert (Hi : is_instance oa (st_class ob) = false).
    { apply not_true_is_false. rewrite is_instance_spec.
      intros [E|Hin']; [by destruct Hne|].
      by apply (Hacyc (not_eq_sym Hne) Hin). }
    assert (E : eq_ b (VStmt a) σ = Some (Ok (VBool false), σ)).
    { rewrite (eq_method_spec _ _ _ _ _ _ _ Hlb Hla)
        by (intros ?; congruence).
      by rewrite Hi. }
    rewrite Hfirst by (intros σ'; by rewrite E).
    rewrite E.
    by destruct (Nat.eqb_neq (cls_id (st_class oa)) (cls_id (st_class ob)))
      as [_ ->].
  - assert (Hi : is_instance ob (st_class oa)
                 = Nat.eqb (cls_id (st_class oa)) (cls_id (st_class ob))).
    { apply eq_true_iff_eq. rewrite is_instance_spec, Nat.eqb_eq.
      split; [|by left].
      intros [E|Hin]; [done|].
      destruct (decide (cls_id (st_class oa) = cls_id (st_class ob)))
        as [|Hne]; [done|].
      assert (proper_subclass (st_class ob) (st_class oa) = true)
        by (apply proper_subclass_spec; split; [congruence|done]).
      congruence. }
    assert (E : eq_ a (VStmt b) σ
                = if Nat.eqb (cls_id (st_class oa)) (cls_id (st_class ob))
                  then match same_parameters oa ob kwa kwb with
                       | Some x => Some (Ok (VBool x), σ)
                       | None => None
                       end
                  else Some (Ok (VBool false), σ)).
    { rewrite (eq_method_spec _ _ _ _ _ _ _ Hla Hlb)
        by (intros ?; congruence).
      by rewrite Hi. }
    rewrite Hfirst; [exact E|].
    intros σ'. rewrite E.
    destruct (Nat.eqb _ _); [|done].
    by destruct (same_parameters oa ob kwa kwb).
Qed.

(** C3, amended: for two statements [a] and [b] that are both
    comparable or both not, [a == b] is a boolean: false when the
    classes differ (also when one derives from the other), and
    otherwise true exactly when the arguments and the keyword arguments
    are equal and, for historical statements, the periods are; the
    store is left as it was and no session is read.  This covers
    arguments whose own comparison has an answer without running the
    [==] of a statement held in them (the same object on both sides is
    equal to itself).  When one of the two is comparable and the other
    is not, [a == b] is in general not a boolean: for a comparable [a]
    and a [b] that is no instance of its class it is a copy of [a]
    whose keyword arguments bind [_eq_] to [b]; for a comparable [b] of
    a class derived from the class of [a] it is such a copy of [b],
    binding [_eq_] to [a]; and for a comparable [b] that is no instance
    of the class of [a] it is [False]. *)
Theorem eq_structural σ a oa kwa b ob kwb :
  live σ a oa kwa →
  live σ b ob kwb →
  acyclic (st_class oa) (st_class ob) →
  (cls_comparable (st_class oa) = cls_comparable (st_class ob) →
   (cls_id (st_class oa) ≠ cls_id (st_class ob) →
    richcmp Eq_ a (VStmt b) σ = Some (Ok (VBool false), σ))
   ∧ (∀ x y,
        cls_id (st_class oa) = cls_id (st_class ob) →
        args_eq (st_args oa) (st_args ob) = Some x →
        dict_eq kwa kwb = Some y →
        richcmp Eq_ a (VStmt b) σ
        = Some (Ok (VBool (x && y
                           && (if cls_historical (st_class oa)
                               then period_eq (st_period oa) (st_period ob)
                               else true))), σ)))
  ∧ (cls_comparable (st_class oa) = true →
     cls_comparable (st_class ob) = false →
     is_instance ob (st_class oa) = false →
     richcmp Eq_ a (VStmt b) σ
     = Some (Ok (VStmt (length (objs σ))),
             MkState (objs σ ++ [MkStmt (st_class oa) (st_args oa)
                                        (length (dicts σ)) (st_period oa)])
                     (dicts σ ++ [<["_eq_" := VStmt b]> kwa]) (log σ)))
  ∧ (cls_comparable (st_class oa) = false →
     cls_comparable (st_class ob) = true →
     proper_subclass (st_class ob) (st_class oa) = true →
     richcmp Eq_ a (VStmt b) σ
     = Some (Ok (VStmt (length (objs σ))),
             MkState (objs σ ++ [MkStmt (st_class ob) (st_args ob)
                                        (length (dicts σ)) (st_period ob)])
                     (dicts σ ++ [<["_eq_" := VStmt a]> kwb]) (log σ)))
  ∧ (cls_comparable (st_class oa) = false →
     cls_comparable (st_class ob) = true →
     is_instance ob (st_class oa) = false →
     richcmp Eq_ a (VStmt b) σ = Some (Ok (VBool false), σ)).
Proof.
  intros Hla Hlb Hacyc. pose proof Hla as [Ha Hka]. pose proof Hlb as [Hb Hkb].
  assert (Hnot : is_instance ob (st_class oa) = false →
                 proper_subclass (st_class ob) (st_class oa) = false).
  { intros Hi. apply not_true_is_false. rewrite proper_subclass_spec.
    intros [_ Hin].
    assert (is_instance ob (st_class oa) = true)
      by (apply is_instance_spec; by right).
    congruence. }
  split; [|split; [|split]]; cycle 3.
  { intros Hca Hcb Hi.
    pose proof (richcmp_eq_first σ a oa b ob Ha Hb) as Hfirst.
    simpl in Hfirst. rewrite (Hnot Hi) in Hfirst.
    assert (E : eq_ a (VStmt b) σ = Some (Ok (VBool false), σ)).
    { rewrite (eq_method_spec _ _ _ _ _ _ _ Hla Hlb)
        by (intros ?; congruence).
      by rewrite Hi. }
    rewrite Hfirst; [exact E|]. intros σ'. by rewrite E. }
  - intros Hc.
    pose proof (richcmp_eq_same_kind _ _ _ _ _ _ _ Hla Hlb Hacyc Hc) as E.
    split.
    + intros Hne. rewrite E.
      by destruct (Nat.eqb_neq (cls_id (st_class oa)) (cls_id (st_class ob)))
        as [_ ->].
    + intros x y Hid Hx Hy. rewrite E.
      destruct (Nat.eqb_eq (cls_id (st_class oa)) (cls_id (st_class ob)))
        as [_ ->]; [|done].
      unfold same_parameters. by rewrite Hx, Hy.
  - intros Hca Hcb Hi.
    pose proof (richcmp_eq_first σ a oa b ob Ha Hb) as Hfirst.
    simpl in Hfirst. rewrite (Hnot Hi) in Hfirst.
    pose proof (eq_method_builds _ _ _ _ _ _ Hla Hb Hca Hcb Hi) as E.
    rewrite (set_comparison_spec _ _ _ _ _ _ Hla) in E.
    rewrite Hfirst; [exact E|]. intros σ'. by rewrite E.
  - intros Hca Hcb Hp.
    pose proof (richcmp_eq_first σ a oa b ob Ha Hb) as Hfirst.
    simpl in Hfirst. rewrite Hp in Hfirst.
    apply proper_subclass_spec in Hp as [Hne Hin].
    assert (Hi : is_instance oa (st_class ob) = false).
    { apply not_true_is_false. rewrite is_instance_spec.
      intros [E|Hin']; [by destruct Hne|].
      by apply (Hacyc (not_eq_sym Hne) Hin). }
    pose proof (eq_method_builds _ _ _ _ _ _ Hlb Ha Hcb Hca Hi) as E.
    rewrite (set_comparison_spec _ _ _ _ _ _ Hlb) in E.
    rewrite Hfirst; [exact E|]. intros σ'. by rewrite E.
Qed.

(** ** Comparable statements against the comparison operators *)

(** The relational operators a comparable statement may carry. *)
Definition relational_operators : list (string * cmpop) :=
  [("_eq_", Eq_); ("_ne_", Ne_); ("_lt_", Lt_);
   ("_gt_", Gt_); ("_le_", Le_); ("_ge_", Ge_)].

(** The length of a countable observation, else the observation. *)
Definition scalar_of (res : value) : value :=
  match len res with
  | Some n => VInt (Z.of_nat n)
  | None => res
  end.

(** [scalar op val] for every operator of the list, conjunctively. *)
Fixpoint conjunction (scalar : value) (ops : list (cmpop * value))
  : option (result value) :=
  match ops with
  | [] => Some (Ok (VBool true))
  | (op, val) :: ops' =>
      match compare op scalar val with
      | Some (Ok v) =>
          match truthy v with
          | Some true => conjunction scalar ops'
          | Some false => Some (Ok (VBool false))
          | None => None
          end
      | other => other
      end
  end.

(** The conversion of a comparable statement in the words of the
    specification: the conjunction of the operators that are present,
    applied to the scalar, and [scalar > 0] when there is none. *)
Definition to_bool_as_specified (kwargs : dict) (res : value)
  : option (result value) :=
  let scalar := scalar_of res in
  let present :=
    omap (fun '(key, op) => (fun val => (op, val)) <$> kwargs !! key)
         relational_operators in
  match present with
  | [] => compare Gt_ scalar (VInt 0)
  | _ => conjunction scalar present
  end.

Lemma scalar_of_not_list res l : scalar_of res ≠ VList l.
Proof. unfold scalar_of. by destruct res. Qed.

(** When the slot of the left operand knows the right one, the operator
    is the slot. *)
Lemma compare_magic op a b :
  (∀ l, a ≠ VList l) →
  magic_flat op a b ≠ Some VNotImplemented →
  magic op a b = compare op a b.
Proof.
  intros Hl Hm.
  destruct a as [| | | | | |l| |]; try (exfalso; by apply (Hl l));
    unfold magic; cbn [compare];
    destruct (magic_flat op _ b) as [[]|] eqn:E; try done; by destruct Hm.
Qed.

Lemma getattr_relational scalar key op :
  (key, op) ∈ relational_operators →
  getattr scalar ("_" ++ key ++ "_") = Ok (magic op scalar).
Proof.
  unfold relational_operators. rewrite !elem_of_cons, elem_of_nil.
  intros H. repeat destruct H as [H|H]; try done;
    by injection H as -> ->.
Qed.

Lemma all_comps_conjunction scalar (kw : dict)
    (ks : list (string * cmpop)) :
  (∀ key op, (key, op) ∈ ks →
             getattr scalar ("_" ++ key ++ "_") = Ok (magic op scalar)) →
  (∀ key op v, (key, op) ∈ ks → kw !! key = Some v →
               magic op scalar v = compare op scalar v) →
  let comps := omap (fun comp => (fun val => ("_" ++ comp ++ "_", val))
                                   <$> kw !! comp) (ks.*1) in
  let present := omap (fun '(key, op) => (fun val => (op, val))
                                           <$> kw !! key) ks in
  all_comps scalar comps = conjunction scalar present
  ∧ (comps = [] ↔ present = []).
Proof.
  induction ks as [|[key op] ks IH]; intros Hg Hm; simpl; [done|].
  destruct IH as [IH1 IH2].
  { intros k o Hk. apply Hg. by right. }
  { intros k o v Hk. apply Hm. by right. }
  destruct (kw !! key) as [v|] eqn:Hv; simpl; [|done].
  split; [|done].
  rewrite (Hg key op) by left.
  rewrite (Hm key op v) by (done || left).
  destruct (compare op scalar v) as [[x|e]|]; [|done|done].
  by destruct (truthy x) as [[]|].
Qed.

(** On the operands that the scalar's type can compare itself with
    (every present operand an [int] or a [bool] for a length, say) the
    code computes the conjunction of the specification. *)
Lemma Comparable_to_bool_as_specified σ self o kw res :
  live σ self o kw →
  (∀ b, res ≠ VBool b) →
  (∀ key op v, (key, op) ∈ relational_operators → kw !! key = Some v →
               magic_flat op (scalar_of res) v ≠ Some VNotImplemented) →
  Comparable_to_bool self res σ
  = lift_option (to_bool_as_specified kw res) σ.
Proof.
  intros [Ho Hd] Hb Hk.
  destruct (all_comps_conjunction (scalar_of res) kw relational_operators)
    as [Hall Hnil].
  { apply getattr_relational. }
  { intros key op v Hin Hv. apply compare_magic; [|by eapply Hk].
    apply scalar_of_not_list. }
  assert (Hrun : Comparable_to_bool self res σ
    = lift_option
        (match omap (fun comp => (fun val => ("_" ++ comp ++ "_", val))
                                   <$> kw !! comp) comparison_keys with
         | [] => compare Gt_ (scalar_of res) (VInt 0)
         | comps => all_comps (scalar_of res) comps
         end) σ).
  { unfold Comparable_to_bool.
    destruct res; try (by destruct (Hb b));
      unfold bind; rewrite (get_obj_live _ _ _ Ho), (get_dict_live _ _ _ Hd);
      unfold scalar_of;
      match goal with
      | |- context [omap ?f comparison_keys] =>
          by destruct (omap f comparison_keys)
      end. }
  rewrite Hrun. unfold to_bool_as_specified. f_equal.
  change comparison_keys with (relational_operators.*1).
  set (comps := omap _ (relational_operators.*1)) in *.
  set (present := omap _ relational_operators) in *.
  clearbody comps present.
  destruct comps as [|c cs], present as [|p ps]; try done.
  - discriminate (proj1 Hnil eq_refl).
  - discriminate (proj2 Hnil eq_refl).
Qed.

End Statements.

(** ** Instances *)

(** An instance of the parameters: the period that covers the last
    [past] units of time before the instant, compared by its length. *)
Definition past_rollback (past instant : Z) : interval :=
  MkInterval (VInt (instant - past)) (VInt instant).

Definition production : world := MkWorld ∅ false 1000.
Definition testing : world := MkWorld ∅ true 1000.

(** A store with one statement, at reference 0, and its dictionary. *)
Definition one_statement (cls : stmt_class) (args : list value)
    (kw : dict) (period : option Z) : state :=
  MkState [MkStmt cls args 0 period] [kw] [].

(** Classes made from [Statement] are made without an error. *)
Lemma from_func_Statement id name func historical quantitative
    use_globals :
  from_func Statement id name func historical quantitative use_globals
  = Ok (new_class Statement id name func historical quantitative
                  use_globals).
Proof.
  unfold from_func. simpl. by rewrite !andb_false_r.
Qed.

(** The store of the examples is what the constructor leaves. *)
Lemma new_statement_first cls args kw :
  new_statement (TimePeriod := Z) cls args None kw (MkState [] [] [])
  = Some (Ok 0%nat, one_statement cls args kw None).
Proof.
  done.
Qed.

(** A statement class whose [observe] raises. *)
Definition failing (e : exn) : stmt_class :=
  new_class Statement 1 "failing" (fun _ _ => Raise e) false false false.

Definition missing_module : exn :=
  MkExn ModuleNotFoundError "No module named 'git'".
Definition interrupted : exn := MkExn KeyboardInterrupt "".
Definition bad_value : exn := MkExn ValueError "invalid literal".

(** A comparable class that observes one event, and a plain class. *)
Definition one_event : stmt_class :=
  new_class Statement 2 "one_event" (fun _ _ => Ok (VList [VObj 7])) false true false.
Definition always : stmt_class :=
  new_class Statement 3 "always" (fun _ _ => Ok (VBool true)) false false false.

(** A historical class that reads the session's parameters too. *)
Definition in_window : stmt_class :=
  new_class Statement 4 "in_window"
    (fun _ kw => Ok (VBool (bool_decide (is_Some (kw !! "_start_")))))
    true false true.

(** ** The failure policy at concrete statements *)

(** C1 as it is stated: whatever exception [observe] raises, it is
    logged and the statement is [False], or it propagates under
    [config.debug]. *)
Definition failure_policy_as_stated : Prop :=
  ∀ (TimePeriod : Type) (rollback : TimePeriod → Z → interval)
    (w : world) (σ : state) (self : nat) (o : stmt_obj) (kw : dict)
    (e : exn),
    live σ self o kw →
    cls_observe (st_class o) (st_args o) (passed_kwargs rollback w o kw)
    = Raise e →
    (config_debug w = false →
     Statement_bool rollback w self σ
     = Some (Ok (VBool false),
             MkState (objs σ) (dicts (after_get_kwargs rollback w σ o kw))
                     (log σ ++ [failure_record o e])))
    ∧ (config_debug w = true →
       ∃ σ' : state, Statement_bool rollback w self σ = Some (Raise e, σ')).

(** C1, counterexample: a missing module is not turned into [False],
    with [config.debug] unset the exception still leaves [bool(s)]. *)
Lemma import_error_not_swallowed : ¬ failure_policy_as_stated.
Proof.
  intros H.
  specialize (H Z past_rollback production
                (one_statement (failing missing_module) [] ∅ None) 0%nat
                (MkStmt (failing missing_module) [] 0 None) ∅
                missing_module (conj eq_refl eq_refl) eq_refl).
  destruct H as [H _]. specialize (H eq_refl).
  vm_compute in H. discriminate H.
Qed.

Lemma bool_false_on_exception_witness :
  Statement_bool past_rollback production 0
    (one_statement (failing bad_value) [] ∅ None)
  = Some (Ok (VBool false),
          MkState [MkStmt (failing bad_value) [] 0 None] [∅]
                  [failure_record (MkStmt (failing bad_value) [] 0
                                          (None : option Z)) bad_value]).
Proof.
  apply (bool_false_on_exception past_rollback production
           (one_statement (failing bad_value) [] ∅ None) 0
           (MkStmt (failing bad_value) [] 0 None) ∅ bad_value).
  - split; reflexivity.
  - reflexivity.
  - reflexivity.
  - reflexivity.
  - reflexivity.
Defined.

(** Under [config.debug] the exception is logged and leaves; an
    exception outside [Exception] leaves without a record. *)
Example bool_raises_under_debug :
  Statement_bool past_rollback testing 0
    (one_statement (failing bad_value) [] ∅ None)
  = Some (Raise bad_value,
          MkState [MkStmt (failing bad_value) [] 0 None] [∅]
                  [failure_record (MkStmt (failing bad_value) [] 0
                                          (None : option Z)) bad_value])
  ∧ Statement_bool past_rollback production 0
      (one_statement (failing (MkExn SystemExit "")) [] ∅ None)
    = Some (Raise (MkExn SystemExit ""),
            one_statement (failing (MkExn SystemExit "")) [] ∅ None).
Proof. vm_compute. by split. Qed.

Lemma bool_reraises_interrupt_and_import_witness :
  Statement_bool past_rollback production 0
    (one_statement (failing interrupted) [] ∅ None)
  = Some (Raise interrupted, one_statement (failing interrupted) [] ∅ None).
Proof.
  apply (bool_reraises_interrupt_and_import past_rollback production
           (one_statement (failing interrupted) [] ∅ None) 0
           (MkStmt (failing interrupted) [] 0 None) ∅ interrupted).
  - split; reflexivity.
  - reflexivity.
  - reflexivity.
Defined.

(** ** Comparable statements at concrete observations *)

(** A comparable class whose [observe] answers a plain boolean. *)
Definition is_running : stmt_class :=
  new_class Statement 5 "is_running" (fun _ _ => Ok (VBool true)) false true false.

Lemma comparable_bool_passthrough_witness :
  Statement_bool past_rollback production 0
    (one_statement is_running [] {["_lt_" := VInt 0]} None)
  = Some (Ok (VBool true),
          one_statement is_running [] {["_lt_" := VInt 0]} None).
Proof.
  destruct (comparable_bool_passthrough past_rollback production
              (one_statement is_running [] {["_lt_" := VInt 0]} None) 0
              (MkStmt is_running [] 0 None) {["_lt_" := VInt 0]} true)
    as [_ H].
  - split; reflexivity.
  - reflexivity.
  - apply H. reflexivity.
Defined.

(** C2, at a failing input: a statement that observes one event and
    carries [>= 2.5] is true, because [int.__ge__] answers
    [NotImplemented] on a [float] and that object is truthy, while the
    conjunction of the specification, [1 >= 2.5], is false. *)
Theorem to_bool_float_operand :
  let kw : dict := {["_ge_" := VFloat (5 # 2)]} in
  Statement_bool past_rollback production 0
    (one_statement one_event [] kw None)
  = Some (Ok (VBool true), one_statement one_event [] kw None)
  ∧ magic Ge_ (VInt 1) (VFloat (5 # 2)) = Some (Ok VNotImplemented)
  ∧ compare Ge_ (VInt 1) (VFloat (5 # 2)) = Some (Ok (VBool false))
  ∧ to_bool_as_specified kw (VList [VObj 7]) = Some (Ok (VBool false)).
Proof. vm_compute. repeat split. Qed.

(** The same statement with an [int] operand follows the
    specification. *)
Example to_bool_int_operand :
  let kw : dict := {["_ge_" := VInt 3]} in
  Statement_bool past_rollback production 0
    (one_statement one_event [] kw None)
  = Some (Ok (VBool false), one_statement one_event [] kw None)
  ∧ to_bool_as_specified kw (VList [VObj 7]) = Some (Ok (VBool false)).
Proof. vm_compute. repeat split. Qed.

(** ** Keyword arguments at concrete statements *)

Lemma historical_passes_period_bounds_witness :
  passed_kwargs past_rollback production
    (MkStmt in_window [] 0 (Some 60)) ∅ !! "_start_" = Some (VInt 940)
  ∧ passed_kwargs past_rollback production
      (MkStmt in_window [] 0 (Some 60)) ∅ !! "_end_" = Some (VInt 1000).
Proof.
  destruct (historical_passes_period_bounds past_rollback production
              (one_statement in_window [] ∅ (Some 60)) 0
              (MkStmt in_window [] 0 (Some 60)) ∅ 60) as (Hs & He & _).
  - split; reflexivity.
  - reflexivity.
  - reflexivity.
  - split; [exact Hs | exact He].
Defined.

(** C4 as it is stated: the keyword arguments of the call are the merge
    of the session's parameters and the statement's own. *)
Definition merge_as_stated : Prop :=
  ∀ (TimePeriod : Type) (rollback : TimePeriod → Z → interval)
    (w : world) (σ : state) (self : nat) (o : stmt_obj) (kw : dict),
    live σ self o kw →
    cls_use_global_params (st_class o) = true →
    ∃ (kwargs : nat) (σ' : state),
      get_kwargs rollback w self σ = Some (Ok kwargs, σ')
      ∧ dicts σ' !! kwargs = Some (dict_or (session_parameters w) kw).

(** C4, counterexample: a historical statement with a period is called
    with two more keys than the merge has. *)
Lemma period_keys_added_to_merge : ¬ merge_as_stated.
Proof.
  intros H.
  destruct (H Z past_rollback production
              (one_statement in_window [] ∅ (Some 60)) 0%nat
              (MkStmt in_window [] 0 (Some 60)) ∅
              (conj eq_refl eq_refl) eq_refl) as (r & σ' & Hk & Hd).
  vm_compute in Hk. injection Hk as <- <-.
  vm_compute in Hd. discriminate Hd.
Qed.

Lemma globals_merged_under_kwargs_witness :
  let w := MkWorld {["mode" := VStr "test"; "state" := VStr "wrong"]}
                   false 1000 in
  let kw : dict := {["state" := VStr "right"]} in
  passed_kwargs past_rollback w (MkStmt in_window [] 0 None) kw
  = {["mode" := VStr "test"; "state" := VStr "right"]}.
Proof.
  intros w kw.
  destruct (globals_merged_under_kwargs past_rollback w
              (one_statement in_window [] kw None) 0
              (MkStmt in_window [] 0 None) kw) as (_ & _ & Hp & _).
  - split; reflexivity.
  - reflexivity.
  - rewrite Hp. apply map_eq. intros key.
    by vm_compute.
Defined.

(** A class that answers whether it was given [mode], without
    [use_globals]. *)
Definition has_mode : stmt_class :=
  new_class Statement 6 "has_mode"
    (fun _ kw => Ok (VBool (bool_decide (is_Some (kw !! "mode")))))
    false false false.

Lemma bool_independent_of_parameters_witness :
  Statement_bool past_rollback (MkWorld ∅ false 1000) 0
    (one_statement has_mode [] ∅ None)
  = Statement_bool past_rollback
      (MkWorld {["mode" := VStr "test"]} false 1000) 0
      (one_statement has_mode [] ∅ None).
Proof.
  apply (bool_independent_of_parameters past_rollback ∅
           {["mode" := VStr "test"]} false 1000
           (one_statement has_mode [] ∅ None) 0
           (MkStmt has_mode [] 0 None)).
  - reflexivity.
  - reflexivity.
Defined.

(** ** Copies and equality at concrete statements *)

Lemma copy_set_params_frame_witness :
  let kw : dict := {["period" := VStr "daily"]} in
  let σ := one_statement always [VInt 1] kw None in
  ∃ (new : nat) (σ1 σ2 : state),
    copy 0 σ = Some (Ok new, σ1)
    ∧ set_params new [] {["task" := VObj 9]} σ1 = Some (Ok tt, σ2)
    ∧ live σ2 0 (MkStmt always [VInt 1] 0 None) kw.
Proof.
  intros kw σ.
  destruct (copy_set_params_frame σ 0 (MkStmt always [VInt 1] 0 None) kw
              [] {["task" := VObj 9]})
    as (new & σ1 & σ2 & n & Hc & Hs & Hl & _).
  - split; reflexivity.
  - exists new, σ1, σ2. exact (conj Hc (conj Hs Hl)).
Defined.

(** Two statements in one store, at references 0 and 1, with the
    dictionaries 0 and 1. *)
Definition two_statements (a b : stmt_obj) (kwa kwb : dict)
  : state (TimePeriod := Z) :=
  MkState [a; b] [kwa; kwb] [].

(** C3 as it is stated: [a == b] is a boolean for every two
    statements, true exactly when the classes are the same and the
    arguments, the keyword arguments and the periods are equal. *)
Definition eq_as_stated : Prop :=
  ∀ (TimePeriod : Type) (TimePeriod_eq : TimePeriod → TimePeriod → bool)
    (σ : state) (a : nat) (oa : stmt_obj) (kwa : dict)
    (b : nat) (ob : stmt_obj) (kwb : dict),
    live σ a oa kwa →
    live σ b ob kwb →
    ∃ (σ' : state) (holds : bool),
      richcmp TimePeriod_eq Eq_ a (VStmt b) σ = Some (Ok (VBool holds), σ')
      ∧ (holds = true
         ↔ cls_id (st_class oa) = cls_id (st_class ob)
           ∧ args_eq (st_args oa) (st_args ob) = Some true
           ∧ dict_eq kwa kwb = Some true
           ∧ (cls_historical (st_class oa) = true →
              period_eq TimePeriod_eq (st_period oa) (st_period ob) = true)).

(** C3, counterexample: a comparable statement compared with a plain
    one gives a statement, not a boolean. *)
Lemma comparable_eq_builds_statement : ¬ eq_as_stated.
Proof.
  intros H.
  destruct (H Z Z.eqb
              (two_statements (MkStmt one_event [] 0 None)
                              (MkStmt always [] 1 None) ∅ ∅)
              0%nat (MkStmt one_event [] 0 None) ∅
              1%nat (MkStmt always [] 1 None) ∅
              (conj eq_refl eq_refl) (conj eq_refl eq_refl))
    as (σ' & holds & Heq & _).
  vm_compute in Heq. discriminate Heq.
Qed.

(** A class derived from [one_event].  Its instances are instances of
    [one_event] and the method [__eq__] of the base class would accept
    them, but [==] asks the derived class first, which refuses an
    instance of its base class. *)
Definition one_event_derived : stmt_class :=
  new_class one_event 8 "one_event_derived" (fun _ _ => Ok (VList []))
            false false false.

Example eq_refuses_derived_class :
  let σ := two_statements (MkStmt one_event [] 0 None)
                          (MkStmt one_event_derived [] 1 None) ∅ ∅ in
  richcmp Z.eqb Eq_ 0 (VStmt 1) σ = Some (Ok (VBool false), σ)
  ∧ richcmp Z.eqb Eq_ 1 (VStmt 0) σ = Some (Ok (VBool false), σ)
  ∧ eq_ Z.eqb 0 (VStmt 1) σ = Some (Ok (VBool true), σ).
Proof. vm_compute. by repeat split. Qed.

(** A plain class and a comparable class derived from it: [==] with the
    plain statement on the left is answered by the comparable one. *)
Definition always_counted : stmt_class :=
  new_class always 12 "always_counted" (fun _ _ => Ok (VInt 1))
            false true false.

Example eq_reflected_builds_statement :
  let σ := two_statements (MkStmt always [] 0 None)
                          (MkStmt always_counted [] 1 None) ∅ ∅ in
  richcmp Z.eqb Eq_ 0 (VStmt 1) σ
  = Some (Ok (VStmt 2),
          MkState [MkStmt always [] 0 None; MkStmt always_counted [] 1 None;
                   MkStmt always_counted [] 2 None]
                  [∅; ∅; {["_eq_" := VStmt 0]}] []).
Proof. by vm_compute. Qed.

Lemma eq_structural_witness :
  let a := MkStmt in_window [VStr "x"] 0 (Some 60) in
  let b := MkStmt in_window [VStr "x"] 1 (Some 61) in
  let kw : dict := {["task" := VObj 9]} in
  richcmp Z.eqb Eq_ 0 (VStmt 1) (two_statements a b kw kw)
  = Some (Ok (VBool false), two_statements a b kw kw).
Proof.
  intros a b kw.
  destruct (eq_structural Z.eqb (two_statements a b kw kw) 0 a kw 1 b kw)
    as [H _].
  - split; reflexivity.
  - split; reflexivity.
  - intros Hne. by destruct Hne.
  - destruct (H eq_refl) as [_ Hsame].
    rewrite (Hsame true true); reflexivity.
Defined.


(** ** The configuration of a session *)

Module SessionConfig.

Local Open Scope Q_scope.

(** A duration, in microseconds as [datetime.timedelta] keeps it. *)
Record timedelta : Type := MkTimedelta { microseconds : Z }.

(** Rounding to the nearest integer, ties to the even one. *)
Definition round_half_even (q : Q) : Z :=
  let n := Qnum q in
  let d := Z.pos (Qden q) in
  let f := (n / d)%Z in
  let twice := (2 * (n mod d))%Z in
  if (twice <? d)%Z then f
  else if (d <? twice)%Z then (f + 1)%Z
  else if Z.even f then f else (f + 1)%Z.

(** [timedelta(seconds=q)] *)
Definition of_seconds (q : Q) : timedelta :=
  MkTimedelta (round_half_even (q * 1000000)).

Definition minutes (n : Z) : timedelta := of_seconds (inject_Z (60 * n)).

(** [2 ** e] for an integer [e]. *)
Definition two_power (e : Z) : Q :=
  if (0 <=? e)%Z then inject_Z (2 ^ e) else 1 # Z.to_pos (2 ^ (- e)).

(** [float(s)] for a decimal numeral that denotes [q]: the nearest
    number with a significand of 53 bits, ties to the even one
    (magnitudes in the range of the normal numbers). *)
Definition float_of (q : Q) : Q :=
  if (Qnum q =? 0)%Z then 0
  else
    let magnitude := Z.abs (Qnum q) # Qden q in
    let e0 := (Z.log2 (Z.abs (Qnum q)) - Z.log2 (Z.pos (Qden q)) - 52)%Z in
    let e := if Qle_bool (inject_Z (2 ^ 52)) (magnitude * two_power (- e0))
             then e0 else (e0 - 1)%Z in
    let significand := round_half_even (magnitude * two_power (- e)) in
    Qred (inject_Z (Z.sgn (Qnum q) * significand) * two_power e).

Definition is_digit (c : ascii) : bool :=
  let n := nat_of_ascii c in (48 <=? n)%nat && (n <=? 57)%nat.

(** The leading digits of [s]: their value after [acc], how many there
    are, and the rest of [s]. *)
Fixpoint digits (s : string) (acc : Z) (n : nat) : Z * nat * string :=
  match s with
  | String c s' =>
      if is_digit c
      then digits s' (10 * acc + Z.of_nat (nat_of_ascii c - 48))%Z (S n)
      else (acc, n, s)
  | EmptyString => (acc, n, s)
  end.

(** A decimal number at the head of [s], as [12] or [0.1]: the
    rational the numeral denotes and the rest of [s]. *)
Definition parse_decimal (s : string) : option (Q * string) :=
  let '(whole, n, rest) := digits s 0 0 in
  match n with
  | O => None
  | _ =>
      match rest with
      | String "."%char rest' =>
          let '(frac, m, rest'') := digits rest' 0 0 in
          match m with
          | O => None
          | _ => Some (inject_Z whole
                       + inject_Z frac / inject_Z (10 ^ Z.of_nat m),
                       rest'')
          end
      | _ => Some (inject_Z whole, rest)
      end
  end.

(** Modelled from the spec: the "human string like [0.1 seconds]", a
    decimal number, a space and the word [seconds]; the number is read
    as a float.  The specification shows no other human string, and
    another one has no answer here. *)
Definition parse_human (s : string) : option Q :=
  match parse_decimal s with
  | Some (q, rest) =>
      if String.eqb rest " seconds" then Some (float_of q) else None
  | None => None
  end.

(** The seconds in a designator of an ISO 8601 duration, before and
    after the [T]. *)
Definition iso_seconds (time_part : bool) (c : ascii) : option Q :=
  if time_part then
    if Ascii.eqb c "H" then Some 3600
    else if Ascii.eqb c "M" then Some 60
    else if Ascii.eqb c "S" then Some 1
    else None
  else
    if Ascii.eqb c "W" then Some 604800
    else if Ascii.eqb c "D" then Some 86400
    else None.

Fixpoint iso_fields (fuel : nat) (time_part : bool) (s : string) (acc : Q)
  : option Q :=
  match fuel with
  | O => None
  | S fuel' =>
      match s with
      | EmptyString => Some acc
      | String "T"%char s' =>
          if time_part then None else iso_fields fuel' true s' acc
      | _ =>
          match parse_decimal s with
          | Some (q, String c rest) =>
              match iso_seconds time_part c with
              | Some per_unit =>
                  iso_fields fuel' time_part rest
                             (acc + float_of q * per_unit)
              | None => None
              end
          | _ => None
          end
      end
  end.

(** Modelled from the spec: the "ISO duration", in the designators of
    ISO 8601 that have a fixed length, such as [PT0.1S] or [P1DT12H]. *)
Definition parse_iso (s : string) : option Q :=
  match s with
  | String "P"%char s' => iso_fields (S (String.length s')) false s' 0
  | _ => None
  end.

(** What the option [timeout] may be given as. *)
Inductive timeout_input : Type :=
  | Number (seconds : Q)
  | Text (s : string)
  | Duration (d : timedelta).

(** Modelled from the spec: the forms the option [timeout] accepts,
    "number-of-seconds, ISO duration, or human string like
    [0.1 seconds]", and a duration itself. *)
Definition parse_timeout (x : timeout_input) : option timedelta :=
  match x with
  | Number seconds => Some (of_seconds seconds)
  | Text s =>
      match parse_iso s with
      | Some seconds => Some (of_seconds seconds)
      | None => of_seconds <$> parse_human s
      end
  | Duration d => Some d
  end.

Inductive pre_exist : Type := raise_ | ignore | replace.
Inductive restart : Type := relaunch | recall | fresh | finish.

Record Config : Type := MkConfig {
  silence_task_prerun : bool;
  silence_task_logging : bool;
  silence_cond_check : bool;
  task_pre_exist : pre_exist;
  timeout : timedelta;
  cycle_sleep : timedelta;
  debug : bool;
  restarting : restart;
  instant_shutdown : bool
}.

(** Modelled from the spec: [Session(config={"timeout": ...})], whose
    code (rocketry.session) is not among the sources, after the
    configuration schema: every option has its default, [timeout] is
    30 minutes unless it is given, and a given one is a number of
    seconds, an ISO duration, a human string or a duration.  [None] is
    a value of [timeout] that the schema does not describe. *)
Definition Session_config (given : option timeout_input) : option Config :=
  match given with
  | None =>
      Some (MkConfig false false false raise_ (minutes 30)
                     (of_seconds (1 # 10)) false relaunch false)
  | Some x =>
      (fun t => MkConfig false false false raise_ t
                         (of_seconds (1 # 10)) false relaunch false)
        <$> parse_timeout x
  end.

(** The [float] that the literal [0.1] denotes. *)
Definition float_0_1 : Q := 3602879701896397 # 36028797018963968.

(** *** Decimal numerals *)

Definition digit_char (d : nat) : ascii := ascii_of_nat (48 + d).

(** The numeral with the digits [ds], the first one first. *)
Fixpoint numeral (ds : list nat) : string :=
  match ds with
  | [] => ""
  | d :: ds' => String (digit_char d) (numeral ds')
  end.

(** The number that the digits [ds] denote after the digits of [acc]. *)
Definition number_of (ds : list nat) (acc : Z) : Z :=
  fold_left (fun a d => (10 * a + Z.of_nat d)%Z) ds acc.

(** The rational that [whole.frac] denotes. *)
Definition decimal (whole frac : list nat) : Q :=
  inject_Z (number_of whole 0)
  + inject_Z (number_of frac 0) / inject_Z (10 ^ Z.of_nat (length frac)).

Lemma digit_char_spec d :
  (d < 10)%nat →
  is_digit (digit_char d) = true
  ∧ (nat_of_ascii (digit_char d) - 48)%nat = d.
Proof.
  intros H.
  do 10 (destruct d as [|d]; [by vm_compute|]). lia.
Qed.

(** No digit at the head of [s]. *)
Definition no_digit (s : string) : Prop :=
  match s with
  | String c _ => is_digit c = false
  | EmptyString => True
  end.

Lemma append_head c (a b : string) : String c a ++ b = String c (a ++ b).
Proof. done. Qed.

Lemma digits_stop rest acc n :
  no_digit rest → digits rest acc n = (acc, n, rest).
Proof.
  destruct rest as [|c rest]; [done|].
  unfold no_digit. intros H. cbn [digits]. by rewrite H.
Qed.

Lemma digits_numeral ds rest :
  Forall (fun d => (d < 10)%nat) ds →
  no_digit rest →
  ∀ acc n,
    digits (numeral ds ++ rest) acc n
    = (number_of ds acc, (n + length ds)%nat, rest).
Proof.
  intros Hds Hrest. induction Hds as [|d ds Hd _ IH]; intros acc n.
  - cbn [numeral length]. change ("" ++ rest) with rest.
    rewrite Nat.add_0_r. by apply digits_stop.
  - destruct (digit_char_spec d Hd) as [Hdigit Hvalue].
    cbn [numeral length]. rewrite append_head. cbn [digits].
    rewrite Hdigit, Hvalue, IH. unfold number_of. cbn [fold_left].
    by rewrite Nat.add_succ_r.
Qed.

(** Reading a numeral gives the number it denotes. *)
Lemma parse_decimal_numeral whole frac rest :
  whole ≠ [] → frac ≠ [] →
  Forall (fun d => (d < 10)%nat) whole →
  Forall (fun d => (d < 10)%nat) frac →
  no_digit rest →
  parse_decimal (numeral whole ++ "." ++ numeral frac ++ rest)
  = Some (decimal whole frac, rest).
Proof.
  intros Hw Hf Hwd Hfd Hrest. unfold parse_decimal, decimal.
  change ("." ++ numeral frac ++ rest)
    with (String "."%char (numeral frac ++ rest)).
  rewrite (digits_numeral whole _ Hwd) by exact eq_refl.
  destruct whole as [|w whole]; [done|].
  cbn [length Nat.add]. cbv beta iota.
  rewrite (digits_numeral frac _ Hfd Hrest).
  destruct frac as [|f frac]; [done|].
  cbn [length Nat.add]. reflexivity.
Qed.

Lemma parse_iso_digit d s :
  (d < 10)%nat → parse_iso (String (digit_char d) s) = None.
Proof.
  intros H. do 10 (destruct d as [|d]; [done|]). lia.
Qed.

Lemma parse_human_numeral whole frac :
  whole ≠ [] → frac ≠ [] →
  Forall (fun d => (d < 10)%nat) whole →
  Forall (fun d => (d < 10)%nat) frac →
  let text := numeral whole ++ "." ++ numeral frac ++ " seconds" in
  parse_iso text = None
  ∧ parse_human text = Some (float_of (decimal whole frac)).
Proof.
  intros Hw Hf Hwd Hfd text.
  pose proof (parse_decimal_numeral whole frac " seconds" Hw Hf Hwd Hfd
                eq_refl) as Hparse.
  fold text in Hparse.
  assert (Hhead : ∃ d s, (d < 10)%nat ∧ text = String (digit_char d) s).
  { subst text. destruct whole as [|w whole]; [done|].
    exists w. eexists. split; [exact (Forall_inv Hwd)|].
    cbn [numeral]. by rewrite append_head. }
  destruct Hhead as (d & s & Hd & Htext).
  split.
  - rewrite Htext. by apply parse_iso_digit.
  - unfold parse_human. by rewrite Hparse.
Qed.

(** C9: a timeout given as a number of seconds, as the human string
    that writes this number before the word [seconds], and as the
    duration of that many seconds is the same configuration, whose
    timeout is the duration; this holds for every decimal numeral, a
    tenth among them.  Without a timeout the configuration has 30
    minutes. *)
Theorem timeout_parse (whole frac : list nat) :
  whole ≠ [] → frac ≠ [] →
  Forall (fun d => (d < 10)%nat) whole →
  Forall (fun d => (d < 10)%nat) frac →
  let seconds := float_of (decimal whole frac) in
  let text := numeral whole ++ "." ++ numeral frac ++ " seconds" in
  timeout <$> Session_config (Some (Number seconds))
  = Some (of_seconds seconds)
  ∧ Session_config (Some (Text text))
    = Session_config (Some (Number seconds))
  ∧ Session_config (Some (Duration (of_seconds seconds)))
    = Session_config (Some (Number seconds))
  ∧ float_of (decimal [0%nat] [1%nat]) = float_0_1
  ∧ of_seconds float_0_1 = MkTimedelta 100000
  ∧ timeout <$> Session_config None
    = Some (MkTimedelta (30 * 60 * 1000000)).
Proof.
  intros Hw Hf Hwd Hfd seconds text.
  destruct (parse_human_numeral whole frac Hw Hf Hwd Hfd) as [Hiso Hhuman].
  split; [reflexivity|]. split.
  { unfold Session_config, parse_timeout. fold text in Hiso, Hhuman.
    rewrite Hiso, Hhuman. reflexivity. }
  split; [reflexivity|].
  vm_compute. by repeat split.
Qed.

Lemma timeout_parse_witness :
  timeout <$> Session_config (Some (Number float_0_1))
  = Some (MkTimedelta 100000)
  ∧ timeout <$> Session_config (Some (Text "0.1 seconds"))
    = Some (MkTimedelta 100000)
  ∧ timeout <$> Session_config (Some (Duration (of_seconds float_0_1)))
    = Some (MkTimedelta 100000).
Proof.
  destruct (timeout_parse [0%nat] [1%nat])
    as (Hnumber & Htext & Hduration & Hfloat & Htenth & _).
  - discriminate.
  - discriminate.
  - repeat constructor.
  - repeat constructor.
  - cbv zeta in Hnumber, Htext, Hduration.
    change (numeral [0%nat] ++ "." ++ numeral [1%nat] ++ " seconds")
      with "0.1 seconds" in Htext.
    rewrite Hfloat in Hnumber, Htext, Hduration.
    rewrite Htenth in Hnumber.
    rewrite Htext, Hduration.
    split; [exact Hnumber|]. split; exact Hnumber.
Defined.

Example timeout_parse_iso :
  timeout <$> Session_config (Some (Text "PT0.1S"))
  = Some (MkTimedelta 100000)
  ∧ timeout <$> Session_config (Some (Text "P1DT12H"))
    = Some (MkTimedelta (36 * 3600 * 1000000))
  ∧ Session_config (Some (Text "soon")) = None.
Proof. vm_compute. repeat split. Qed.

End SessionConfig.
(** * The rest of the statement framework *)

Section Operators.

Context {TimePeriod : Type}.
Variable rollback : TimePeriod → Z → interval.
Variable TimePeriod_eq : TimePeriod → TimePeriod → bool.

Notation "'let!' x ':=' m 'in' k" := (bind m (fun x => k))
  (at level 10, x name, m at level 100, k at level 200).

(** [Statement.to_count] *)
Definition to_count (result : value) : Py.result value :=
  match result with
  | VBool _ | VInt _ | VFloat _ => Ok result
  | _ =>
      match len result with
      | Some n => Ok (VInt (Z.of_nat n))
      | None =>
          Raise (MkExn TypeError
                   ("object of type '" ++ type_name result
                      ++ "' has no len()"))
      end
  end.

(** The copy that a comparison leaves in the store. *)
Definition compared (o : stmt_obj (TimePeriod := TimePeriod))
    (σ : state (TimePeriod := TimePeriod)) : stmt_obj :=
  MkStmt (st_class o) (st_args o) (length (dicts σ)) (st_period o).

(** The methods of a comparable receiver store an operand that is no
    statement, [__eq__] as the others. *)
Lemma method_comparable op σ self o kw other :
  live (TimePeriod := TimePeriod) σ self o kw →
  cls_comparable (st_class o) = true →
  (∀ r, other ≠ VStmt r) →
  method TimePeriod_eq op self other σ
  = set_comparison self (operator_key op) other σ.
Proof.
  intros [Ho Hd] Hc Hv.
  unfold method, bind at 1. rewrite (get_obj_live _ _ _ Ho), Hc.
  destruct op; try done.
  assert (Hcmp : Comparable_eq self other σ
                 = set_comparison self "_eq_" other σ).
  { unfold Comparable_eq, bind, isinstance_Comparable.
    destruct other; try done. by destruct (Hv ref). }
  simpl. unfold eq_, bind at 1. rewrite (get_obj_live _ _ _ Ho), Hc.
  destruct (cls_historical (st_class o)); [|done].
  unfold Historical_eq, bind at 1. rewrite (get_obj_live _ _ _ Ho), Hc.
  unfold bind at 1, isinstance_of.
  destruct other; try done. by destruct (Hv ref).
Qed.

(** With a comparable receiver and an operand that is no statement the
    operator is answered by the method of the receiver. *)
Lemma richcmp_value op σ self o kw other :
  live (TimePeriod := TimePeriod) σ self o kw →
  cls_comparable (st_class o) = true →
  (∀ r, other ≠ VStmt r) →
  richcmp TimePeriod_eq op self other σ
  = set_comparison self (operator_key op) other σ.
Proof.
  intros Hl Hc Hv. pose proof Hl as [Ho Hd].
  pose proof (method_comparable op _ _ _ _ _ Hl Hc Hv) as Hm.
  rewrite (set_comparison_spec _ _ _ _ _ _ Hl) in *.
  unfold richcmp, bind at 1. rewrite (get_obj_live _ _ _ Ho).
  destruct other; try (by destruct (Hv ref));
    unfold bind at 1, ret at 1; unfold bind at 1, ret at 1;
    unfold bind at 1; by rewrite Hm.
Qed.

(** X1: on a comparable statement every operator with an operand that
    is no statement builds a new statement and leaves the receiver
    alone: the result is a copy of the receiver, of the same class,
    arguments and period, whose own dictionary has the items of the
    receiver's and the operand under the operator's key; the receiver,
    its dictionary and the log are as before. *)
Theorem comparison_builds_copy op σ self o kw other :
  live σ self o kw →
  cls_comparable (st_class o) = true →
  (∀ r, other ≠ VStmt r) →
  ∃ σ' : state,
    richcmp TimePeriod_eq op self other σ
    = Some (Ok (VStmt (length (objs σ))), σ')
    ∧ length (objs σ) ≠ self
    ∧ live σ' self o kw
    ∧ live σ' (length (objs σ)) (compared o σ)
           (<[operator_key op := other]> kw)
    ∧ st_kwargs (compared o σ) ≠ st_kwargs o
    ∧ length (objs σ') = S (length (objs σ))
    ∧ log σ' = log σ.
Proof.
  intros Hl Hc Hv. pose proof Hl as [Ho Hd].
  pose proof (lookup_lt_live _ _ _ Ho) as Hlo.
  pose proof (lookup_lt_live _ _ _ Hd) as Hld.
  rewrite (richcmp_value _ _ _ _ _ _ Hl Hc Hv).
  rewrite (set_comparison_spec _ _ _ _ _ _ Hl).
  eexists. split; [reflexivity|]. simpl.
  split; [lia|].
  split; [split; simpl; by apply lookup_app_l_Some|].
  split; [split; simpl; apply lookup_snoc|].
  split; [lia|]. split; [|done].
  rewrite length_app. simpl. lia.
Qed.

(** X2: comparisons chain.  On a comparable statement and with
    operands that are no statements, a second operator applied to the
    result of a first one gives a statement that carries both operands,
    and the same operator applied twice keeps the later operand
    only. *)
Theorem comparisons_chain op1 op2 σ self o kw v1 v2 :
  live σ self o kw →
  cls_comparable (st_class o) = true →
  (∀ r, v1 ≠ VStmt r) →
  (∀ r, v2 ≠ VStmt r) →
  ∃ (σ1 σ2 : state) (first second : nat) (n : stmt_obj),
    richcmp TimePeriod_eq op1 self v1 σ = Some (Ok (VStmt first), σ1)
    ∧ richcmp TimePeriod_eq op2 first v2 σ1 = Some (Ok (VStmt second), σ2)
    ∧ live σ2 second n
        (<[operator_key op2 := v2]> (<[operator_key op1 := v1]> kw))
    ∧ (op1 = op2 →
       live σ2 second n (<[operator_key op2 := v2]> kw))
    ∧ live σ2 self o kw
    ∧ live σ2 first (compared o σ) (<[operator_key op1 := v1]> kw).
Proof.
  intros Hl Hc H1 H2. pose proof Hl as [Ho Hd].
  pose proof (lookup_lt_live _ _ _ Ho) as Hlo.
  pose proof (lookup_lt_live _ _ _ Hd) as Hld.
  set (σ1 := MkState (objs σ ++ [compared o σ])
                     (dicts σ ++ [<[operator_key op1 := v1]> kw]) (log σ)).
  assert (Hl1 : live σ1 (length (objs σ)) (compared o σ)
                     (<[operator_key op1 := v1]> kw)).
  { split; simpl; apply lookup_snoc. }
  exists σ1, (MkState (objs σ1 ++ [compared (compared o σ) σ1])
                      (dicts σ1 ++ [<[operator_key op2 := v2]>
                                      (<[operator_key op1 := v1]> kw)])
                      (log σ1)),
         (length (objs σ)), (length (objs σ1)), (compared (compared o σ) σ1).
  assert (Hlast : live
            (MkState (objs σ1 ++ [compared (compared o σ) σ1])
                     (dicts σ1 ++ [<[operator_key op2 := v2]>
                                     (<[operator_key op1 := v1]> kw)])
                     (log σ1))
            (length (objs σ1)) (compared (compared o σ) σ1)
            (<[operator_key op2 := v2]> (<[operator_key op1 := v1]> kw))).
  { split; simpl; apply lookup_snoc. }
  split.
  { rewrite (richcmp_value _ _ _ _ _ _ Hl Hc H1).
    by rewrite (set_comparison_spec _ _ _ _ _ _ Hl). }
  split.
  { rewrite (richcmp_value _ _ _ _ _ _ Hl1 Hc H2).
    by rewrite (set_comparison_spec _ _ _ _ _ _ Hl1). }
  split; [exact Hlast|].
  split.
  { intros E.
    replace (<[operator_key op2 := v2]> kw)
      with (<[operator_key op2 := v2]> (<[operator_key op1 := v1]> kw));
      [exact Hlast|].
    rewrite E. apply insert_insert_eq. }
  split.
  - split; simpl; apply lookup_app_l_Some; by apply lookup_app_l_Some.
  - destruct Hl1 as [Ha Hb]. split; simpl in *; by apply lookup_app_l_Some.
Qed.

(** ** Evaluation of a comparison *)

(** The statement's own dictionary once [get_kwargs] has run. *)
Definition own_after (w : world) (o : stmt_obj (TimePeriod := TimePeriod))
    (kw : dict) : dict :=
  if cls_use_global_params (st_class o) then kw
  else passed_kwargs rollback w o kw.

Lemma live_after_get_kwargs w σ self o kw :
  live σ self o kw →
  live (after_get_kwargs rollback w σ o kw) self o (own_after w o kw).
Proof.
  intros [Ho Hd]. split; [done|].
  unfold after_get_kwargs, own_after. simpl.
  destruct (cls_use_global_params (st_class o)).
  - by apply lookup_app_l_Some.
  - apply list_lookup_insert_eq. by eapply lookup_lt_live.
Qed.

Lemma with_period_operator w (o : stmt_obj (TimePeriod := TimePeriod))
    (kw : dict) op :
  with_period rollback w o kw !! operator_key op = kw !! operator_key op.
Proof.
  unfold with_period. destruct (st_period o); [|done].
  by destruct op; rewrite !lookup_insert_ne.
Qed.

Lemma own_after_operator w o kw op :
  own_after w o kw !! operator_key op = kw !! operator_key op.
Proof.
  unfold own_after, passed_kwargs.
  destruct (cls_use_global_params (st_class o)); [done|].
  destruct (cls_historical (st_class o)); [|done].
  apply with_period_operator.
Qed.

(** The operators [Comparable._to_bool] finds in a dictionary. *)
Definition comps_of (kw : dict) : list (string * value) :=
  omap (fun comp => (fun val => ("_" ++ comp ++ "_", val)) <$> kw !! comp)
       comparison_keys.

Ltac all_operators H :=
  pose proof (H Eq_); pose proof (H Ne_); pose proof (H Lt_);
  pose proof (H Gt_); pose proof (H Le_); pose proof (H Ge_);
  simpl operator_key in *.

Lemma comps_of_lookups (kw kw' : dict) :
  (∀ op, kw' !! operator_key op = kw !! operator_key op) →
  comps_of kw' = comps_of kw.
Proof.
  intros H. unfold comps_of, comparison_keys. all_operators H. simpl.
  repeat match goal with E : kw' !! _ = _ |- _ => rewrite E; clear E end.
  done.
Qed.

Lemma comps_of_none (kw : dict) :
  (∀ op, kw !! operator_key op = None) → comps_of kw = [].
Proof.
  intros H. unfold comps_of, comparison_keys. all_operators H. simpl.
  repeat match goal with E : kw !! _ = None |- _ => rewrite E; clear E end.
  done.
Qed.

Lemma comps_of_single (kw : dict) op v :
  (∀ op', kw !! operator_key op' = None) →
  comps_of (<[operator_key op := v]> kw)
  = [("_" ++ operator_key op ++ "_", v)].
Proof.
  intros H. unfold comps_of, comparison_keys. all_operators H.
  destruct op; simpl;
    rewrite ?lookup_insert_eq, ?lookup_insert_ne by done; simpl;
    repeat match goal with
           | E : kw !! _ = None |- _ => rewrite ?E; clear E
           end; done.
Qed.

Lemma Comparable_to_bool_run σ self o kw res :
  live (TimePeriod := TimePeriod) σ self o kw →
  (∀ b, res ≠ VBool b) →
  Comparable_to_bool self res σ
  = lift_option (match comps_of kw with
                 | [] => compare Gt_ (scalar_of res) (VInt 0)
                 | comps => all_comps (scalar_of res) comps
                 end) σ.
Proof.
  intros [Ho Hd] Hb. unfold Comparable_to_bool, comps_of.
  destruct res; try (by destruct (Hb b));
    unfold bind; rewrite (get_obj_live _ _ _ Ho), (get_dict_live _ _ _ Hd);
    unfold scalar_of;
    match goal with
    | |- context [omap ?f comparison_keys] =>
        by destruct (omap f comparison_keys)
    end.
Qed.

Lemma operator_key_relational op :
  (operator_key op, op) ∈ relational_operators.
Proof.
  unfold relational_operators. destruct op; simpl;
    repeat (first [by left | right]).
Qed.

Lemma all_comps_single_int op c z :
  all_comps (VInt c) [("_" ++ operator_key op ++ "_", VInt z)]
  = Some (Ok (VBool (of_comparison op (c ?= z)%Z))).
Proof.
  unfold all_comps.
  rewrite (getattr_relational _ _ _ (operator_key_relational op)).
  unfold magic, magic_flat. simpl.
  by destruct (of_comparison op (c ?= z)%Z).
Qed.

(** X3: building a comparison and evaluating it compares the count.
    For a comparable statement that carries no operator yet, the
    statement [s op z] with an integer [z] is true exactly when the
    length of the observation (or the observed integer) [c] satisfies
    [c op z]; [observe] is called with the operand among its keyword
    arguments. *)
Theorem comparison_round_trip op w σ self o kw z res c :
  live σ self o kw →
  cls_comparable (st_class o) = true →
  (∀ op', kw !! operator_key op' = None) →
  cls_observe (st_class o) (st_args o)
    (passed_kwargs rollback w (compared o σ)
                   (<[operator_key op := VInt z]> kw)) = Ok res →
  (∀ b, res ≠ VBool b) →
  scalar_of res = VInt c →
  ∃ σ1 σ2 : state,
    richcmp TimePeriod_eq op self (VInt z) σ
    = Some (Ok (VStmt (length (objs σ))), σ1)
    ∧ Statement_bool rollback w (length (objs σ)) σ1
      = Some (Ok (VBool (of_comparison op (c ?= z)%Z)), σ2)
    ∧ passed_kwargs rollback w (compared o σ)
                    (<[operator_key op := VInt z]> kw) !! operator_key op
      = Some (VInt z).
Proof.
  intros Hl Hc Hnone Hobs Hb Hs.
  set (kw' := <[operator_key op := VInt z]> kw) in *.
  set (σ1 := MkState (objs σ ++ [compared o σ]) (dicts σ ++ [kw']) (log σ)).
  assert (Hl1 : live σ1 (length (objs σ)) (compared o σ) kw').
  { split; simpl; apply lookup_snoc. }
  exists σ1, (after_get_kwargs rollback w σ1 (compared o σ) kw').
  split.
  { rewrite (richcmp_value _ _ _ _ _ _ Hl Hc) by done.
    by rewrite (set_comparison_spec _ _ _ _ _ _ Hl). }
  split.
  - rewrite (Statement_bool_spec _ _ _ _ _ _ Hl1).
    unfold observe_and_convert, try_except, bind, lift.
    change (st_class (compared o σ)) with (st_class o).
    change (st_args (compared o σ)) with (st_args o).
    rewrite Hobs.
    pose proof (live_after_get_kwargs w _ _ _ _ Hl1) as Hl2.
    rewrite (to_bool_spec _ _ _ _ (proj1 Hl2)). simpl. rewrite Hc.
    rewrite (Comparable_to_bool_run _ _ _ _ _ Hl2 Hb).
    rewrite (comps_of_lookups kw' _ (own_after_operator w _ kw')).
    unfold kw'. rewrite (comps_of_single _ _ _ Hnone), Hs.
    by rewrite all_comps_single_int.
  - unfold passed_kwargs.
    assert (Hk : kw' !! operator_key op = Some (VInt z))
      by apply lookup_insert_eq.
    assert (Hm : dict_or (session_parameters w) kw' !! operator_key op
                 = Some (VInt z))
      by (by apply lookup_union_Some_l).
    destruct (cls_use_global_params _), (cls_historical _);
      rewrite ?with_period_operator; done.
Qed.

(** ** A comparable statement without operators *)

Lemma scalar_of_not_bool res b :
  (∀ b', res ≠ VBool b') → scalar_of res ≠ VBool b.
Proof.
  intros H. unfold scalar_of.
  destruct res; try done; by destruct (H b0).
Qed.

Lemma compare_gt_zero_number s q :
  as_number s = Some q →
  (∀ b, s ≠ VBool b) →
  compare Gt_ s (VInt 0)
  = Some (Ok (VBool (of_comparison Gt_ (q ?= 0)%Q))).
Proof.
  intros Hn Hb. destruct s; try done.
  - by destruct (Hb b).
  - injection Hn as <-. simpl.
    unfold Qcompare. simpl. by rewrite Z.mul_1_r.
  - by injection Hn as <-.
Qed.

Lemma compare_gt_zero_other s :
  as_number s = None →
  (∀ l, s ≠ VList l) →
  (∀ t, s ≠ VStr t) →
  (∀ r, s ≠ VStmt r) →
  compare Gt_ s (VInt 0) = Some (Raise (not_supported Gt_ s (VInt 0))).
Proof.
  intros Hn Hl Ht Hr. destruct s; try done. by destruct (Hr ref).
Qed.

(** X4: without operators a comparable statement asks whether the
    count is positive: for an observation that is a number, or that has
    a length, the conversion is [True] exactly when the number (the
    length) is greater than 0. *)
Theorem no_operator_means_positive σ self o kw res q :
  live (TimePeriod := TimePeriod) σ self o kw →
  cls_comparable (st_class o) = true →
  (∀ op, kw !! operator_key op = None) →
  (∀ b, res ≠ VBool b) →
  as_number (scalar_of res) = Some q →
  to_bool self res σ
  = Some (Ok (VBool (of_comparison Gt_ (q ?= 0)%Q)), σ).
Proof.
  intros Hl Hc Hnone Hb Hq.
  rewrite (to_bool_spec _ _ _ _ (proj1 Hl)), Hc.
  rewrite (Comparable_to_bool_run _ _ _ _ _ Hl Hb).
  rewrite (comps_of_none _ Hnone).
  rewrite (compare_gt_zero_number _ _ Hq); [done|].
  intros b. by apply scalar_of_not_bool.
Qed.

(** X5: the [try] of [__bool__] covers the conversion too.  When a
    comparable statement without operators observes an object that is
    neither a number nor has a length and is no statement ([None],
    say), [res > 0] raises a [TypeError], which is logged; the
    statement is [False], or the error leaves under [config.debug]. *)
Theorem no_operator_type_error w σ self o kw res :
  live σ self o kw →
  cls_comparable (st_class o) = true →
  (∀ op, kw !! operator_key op = None) →
  cls_observe (st_class o) (st_args o) (passed_kwargs rollback w o kw)
  = Ok res →
  as_number (scalar_of res) = None →
  (∀ r, res ≠ VStmt r) →
  Statement_bool rollback w self σ
  = Some (if config_debug w
          then Raise (not_supported Gt_ res (VInt 0))
          else Ok (VBool false),
          MkState (objs σ) (dicts (after_get_kwargs rollback w σ o kw))
                  (log σ ++ [failure_record o
                               (not_supported Gt_ res (VInt 0))])).
Proof.
  intros Hl Hc Hnone Hobs Hn Hr.
  assert (Hb : ∀ b, res ≠ VBool b) by (intros b ->; done).
  assert (Hs : scalar_of res = res).
  { unfold scalar_of in *. by destruct res. }
  rewrite (Statement_bool_spec _ _ _ _ _ _ Hl).
  unfold observe_and_convert, try_except, bind, lift. rewrite Hobs.
  pose proof (live_after_get_kwargs w _ _ _ _ Hl) as Hl2.
  rewrite (to_bool_spec _ _ _ _ (proj1 Hl2)), Hc.
  rewrite (Comparable_to_bool_run _ _ _ _ _ Hl2 Hb).
  rewrite (comps_of_lookups kw _ (own_after_operator w _ kw)).
  rewrite (comps_of_none _ Hnone), Hs. rewrite Hs in Hn.
  rewrite compare_gt_zero_other;
    [|done| by intros l -> | by intros t -> | done].
  unfold lift_option.
  by rewrite (on_exception_logged w self o _ _ (proj1 Hl2)).
Qed.

(** ** What an evaluation returns and leaves *)

Lemma bind_ok_inv {A B} (m : M (TimePeriod := TimePeriod) A)
    (k : A → M B) σ b σ' :
  bind m k σ = Some (Ok b, σ') →
  ∃ a σ1, m σ = Some (Ok a, σ1) ∧ k a σ1 = Some (Ok b, σ').
Proof.
  unfold bind. destruct (m σ) as [[[a|e] σ1]|]; try done.
  intros H. by exists a, σ1.
Qed.

Lemma all_comps_boolean res comps v :
  all_comps res comps = Some (Ok v) → ∃ b, v = VBool b.
Proof.
  revert v. induction comps as [|[comp val] comps IH]; intros v; simpl.
  - intros [= <-]. by eexists.
  - destruct (getattr res comp) as [method|]; [|done].
    destruct (method val) as [[x|]|]; [|done|done].
    destruct (truthy x) as [[]|]; [apply IH| |done].
    intros [= <-]. by eexists.
Qed.

Lemma compare_gt_zero_boolean s v :
  (∀ l, s ≠ VList l) →
  compare Gt_ s (VInt 0) = Some (Ok v) → ∃ b, v = VBool b.
Proof.
  intros Hl. destruct s; try (by destruct (Hl l)); simpl;
    try (intros [= <-]; by eexists); try done.
Qed.

Lemma Comparable_rest_boolean r (kwargs : dict) v :
  (∀ l, r ≠ VList l) →
  match comps_of kwargs with
  | [] => compare Gt_ r (VInt 0)
  | _ => all_comps r (comps_of kwargs)
  end = Some (Ok v) →
  ∃ b, v = VBool b.
Proof.
  intros Hr. destruct (comps_of kwargs).
  - by apply compare_gt_zero_boolean.
  - apply all_comps_boolean.
Qed.

Lemma lift_option_inv {A} (x : option (result A))
    (σ σ' : state (TimePeriod := TimePeriod)) r :
  lift_option x σ = Some (r, σ') → x = Some r ∧ σ' = σ.
Proof. unfold lift_option. destruct x; [|done]. by intros [= -> ->]. Qed.

Lemma Statement_to_bool_inv self res
    (σ σ' : state (TimePeriod := TimePeriod)) r :
  Statement_to_bool self res σ = Some (r, σ') →
  ∃ b, truthy res = Some b ∧ r = Ok (VBool b) ∧ σ' = σ.
Proof.
  unfold Statement_to_bool. destruct (truthy res) as [b|]; [|done].
  intros [= <- <-]. by exists b.
Qed.

Lemma to_bool_boolean self res (σ σ' : state (TimePeriod := TimePeriod)) v :
  to_bool self res σ = Some (Ok v, σ') → ∃ b, v = VBool b.
Proof.
  unfold to_bool. intros H.
  apply bind_ok_inv in H as (o & σ1 & _ & H).
  destruct (cls_comparable (st_class o)).
  - unfold Comparable_to_bool in H.
    destruct res;
      try (apply Statement_to_bool_inv in H as (b' & _ & [= ->] & _);
           by eexists);
      cbn [len] in H; cbv zeta in H;
      apply bind_ok_inv in H as (o' & σ2 & _ & H);
      apply bind_ok_inv in H as (kwargs & σ3 & _ & H);
      match type of H with
      | context [compare Gt_ ?r (VInt 0)] =>
          apply (Comparable_rest_boolean r kwargs v); [done|];
          unfold comps_of;
          match type of H with
          | context [omap ?f comparison_keys] =>
              destruct (omap f comparison_keys)
          end; by apply lift_option_inv in H as [H _]
      end.
  - apply Statement_to_bool_inv in H as (b & _ & [= ->] & _). by eexists.
Qed.

(** The slot of an object that is no statement answers, with a boolean
    or with [NotImplemented]. *)
Lemma magic_flat_answers op a b :
  (∀ r, a ≠ VStmt r) →
  ∃ v, magic_flat op a b = Some v ∧ ∃ t, truthy v = Some t.
Proof.
  intros Ha.
  destruct a; try (by destruct (Ha ref)); destruct op, b; simpl;
    try (eexists; split; [done|by eexists]);
    destruct (Nat.eqb _ _); eexists; (split; [done|by eexists]).
Qed.

Lemma all_comps_answers res comps :
  (∀ r, res ≠ VStmt r) →
  (∀ l, res ≠ VList l) →
  ∃ r, all_comps res comps = Some r.
Proof.
  intros Hs Hl. induction comps as [|[comp val] comps IH]; simpl.
  { by eexists. }
  assert (Hm : ∀ op, ∃ v, magic op res val = Some (Ok v)
                          ∧ ∃ t, truthy v = Some t).
  { intros op.
    destruct (magic_flat_answers op res val Hs) as (v & Hv & Ht).
    exists v. split; [|done].
    unfold magic. destruct res; try (by rewrite Hv). by destruct (Hl l). }
  unfold getattr.
  repeat match goal with
         | |- context [if ?c then _ else _] => destruct c
         end;
    try (by eexists);
    match goal with
    | |- context [magic ?op res val] =>
        destruct (Hm op) as (v & -> & [[] ->]); [exact IH | by eexists]
    end.
Qed.

Lemma compare_gt_zero_answers s :
  (∀ r, s ≠ VStmt r) →
  (∀ l, s ≠ VList l) →
  ∃ r, compare Gt_ s (VInt 0) = Some r.
Proof.
  intros Hs Hl.
  destruct s; try (by destruct (Hs ref)); try (by destruct (Hl l));
    by eexists.
Qed.

Lemma scalar_of_not_statement res r :
  (∀ r', res ≠ VStmt r') → scalar_of res ≠ VStmt r.
Proof.
  intros H. unfold scalar_of. destruct res; try done.
Qed.

(** The conversion of an observation that is no statement has an
    answer and leaves the store as it is. *)
Lemma to_bool_answers σ self o kw res :
  live (TimePeriod := TimePeriod) σ self o kw →
  (∀ r, res ≠ VStmt r) →
  ∃ r, to_bool self res σ = Some (r, σ).
Proof.
  intros Hl Hs. pose proof Hl as [Ho Hd].
  rewrite (to_bool_spec _ _ _ _ Ho).
  assert (Hplain : ∃ r, Statement_to_bool self res σ = Some (r, σ)).
  { unfold Statement_to_bool.
    destruct res; try (by eexists). by destruct (Hs ref). }
  destruct (cls_comparable (st_class o)); [|exact Hplain].
  assert (Hcases : (∃ b, res = VBool b) ∨ ∀ b, res ≠ VBool b).
  { destruct res; try (by right). left. by eexists. }
  destruct Hcases as [[b ->]|Hb].
  { by eexists. }
  rewrite (Comparable_to_bool_run _ _ _ _ _ Hl Hb).
  destruct (comps_of kw) as [|c cs].
  - destruct (compare_gt_zero_answers (scalar_of res)) as [r ->].
    + intros r. by apply scalar_of_not_statement.
    + apply scalar_of_not_list.
    + by eexists.
  - destruct (all_comps_answers (scalar_of res) (c :: cs)) as [r ->].
    + intros r. by apply scalar_of_not_statement.
    + apply scalar_of_not_list.
    + by eexists.
Qed.

Lemma on_exception_answers w self o exc
    (σ : state (TimePeriod := TimePeriod)) :
  objs σ !! self = Some o →
  ∃ r σ', on_exception w self exc σ = Some (r, σ')
          ∧ ∀ v, r = Ok v → v = VBool false.
Proof.
  intros Ho. unfold on_exception.
  destruct (isinstance exc KeyboardInterrupt || isinstance exc ImportError).
  { by eexists _, _. }
  destruct (isinstance exc Exception); [|by eexists _, _].
  unfold bind. rewrite (Statement_str_spec _ _ _ Ho).
  unfold logger_exception.
  destruct (config_debug w); eexists _, _; (split; [done|]); [done|].
  by intros v [= <-].
Qed.

(** X6: [__bool__] answers with a boolean.  Whatever the class and the
    store, when the observation is not itself a statement an
    evaluation returns [True] or [False] or raises; it returns no other
    object. *)
Theorem bool_returns_boolean w σ self o kw :
  live σ self o kw →
  (∀ r, cls_observe (st_class o) (st_args o)
          (passed_kwargs rollback w o kw) ≠ Ok (VStmt r)) →
  ∃ r σ',
    Statement_bool rollback w self σ = Some (r, σ')
    ∧ ∀ v, r = Ok v → ∃ b, v = VBool b.
Proof.
  intros Hl Hobs.
  rewrite (Statement_bool_spec _ _ _ _ _ _ Hl).
  pose proof (live_after_get_kwargs w _ _ _ _ Hl) as Hl2.
  unfold observe_and_convert, try_except, bind, lift.
  destruct (cls_observe _ _ _) as [res|e] eqn:Eobs.
  - destruct (to_bool_answers _ _ _ _ res Hl2) as [r Hr].
    { intros r ->. by apply (Hobs r). }
    rewrite Hr. destruct r as [v|e].
    + eexists _, _. split; [done|]. intros v' [= <-].
      by eapply to_bool_boolean.
    + destruct (on_exception_answers w self o e _ (proj1 Hl2))
        as (r & σ' & -> & Hv).
      exists r, σ'. split; [done|]. intros v ->.
      exists false. by apply Hv.
  - destruct (on_exception_answers w self o e _ (proj1 Hl2))
      as (r & σ' & -> & Hv).
    exists r, σ'. split; [done|]. intros v ->.
    exists false. by apply Hv.
Qed.

Lemma to_bool_state self res (σ σ' : state (TimePeriod := TimePeriod)) r :
  to_bool self res σ = Some (r, σ') → σ' = σ.
Proof.
  unfold to_bool, bind, get_obj.
  destruct (objs σ !! self) as [o|]; [|done].
  assert (Hplain : Statement_to_bool self res σ = Some (r, σ') → σ' = σ).
  { intros H. by apply Statement_to_bool_inv in H as (b & _ & _ & ->). }
  destruct (cls_comparable (st_class o)); [|exact Hplain].
  unfold Comparable_to_bool, bind, get_obj, get_dict.
  destruct res; try exact Hplain;
    rewrite ?(eq_refl : objs σ !! self = objs σ !! self);
    destruct (objs σ !! self) as [o'|]; try done;
    destruct (dicts σ !! st_kwargs o'); try done;
    match goal with
    | |- context [omap ?f comparison_keys] =>
        destruct (omap f comparison_keys)
    end; intros H; by apply lift_option_inv in H as [_ ->].
Qed.

Lemma on_exception_cases w self o exc
    (σ σ' : state (TimePeriod := TimePeriod)) r :
  objs σ !! self = Some o →
  on_exception w self exc σ = Some (r, σ') →
  (r = Raise exc ∧ σ' = σ)
  ∨ (r = (if config_debug w then Raise exc else Ok (VBool false))
     ∧ σ' = MkState (objs σ) (dicts σ) (log σ ++ [failure_record o exc])).
Proof.
  intros Ho. unfold on_exception.
  destruct (isinstance exc KeyboardInterrupt || isinstance exc ImportError).
  { intros [= <- <-]. by left. }
  destruct (isinstance exc Exception).
  - unfold bind. rewrite (Statement_str_spec _ _ _ Ho).
    unfold logger_exception, failure_record.
    destruct (config_debug w); intros [= <- <-]; by right.
  - intros [= <- <-]. by left.
Qed.

(** X7: what an evaluation leaves behind when the observation is not
    itself a statement.  It never touches a statement object and writes
    at most one record, an error record with the exception, and only
    when the result is that exception or [False]: an evaluation that
    gives [True] has logged nothing. *)
Theorem evaluation_effects w σ self o kw r σ' :
  live σ self o kw →
  (∀ s, cls_observe (st_class o) (st_args o)
          (passed_kwargs rollback w o kw) ≠ Ok (VStmt s)) →
  Statement_bool rollback w self σ = Some (r, σ') →
  objs σ' = objs σ
  ∧ dicts σ' = dicts (after_get_kwargs rollback w σ o kw)
  ∧ (log σ' = log σ
     ∨ ∃ e, log σ' = (log σ ++ [failure_record o e])%list
            ∧ r = (if config_debug w then Raise e else Ok (VBool false)))
  ∧ (r = Ok (VBool true) → log σ' = log σ).
Proof.
  intros Hl _. rewrite (Statement_bool_spec _ _ _ _ _ _ Hl).
  pose proof (live_after_get_kwargs w _ _ _ _ Hl) as [Ho2 _].
  set (σa := after_get_kwargs rollback w σ o kw) in *.
  assert (Hcases :
    observe_and_convert rollback w self o kw σa = Some (r, σ') →
    σ' = σa
    ∨ ∃ e, r = (if config_debug w then Raise e else Ok (VBool false))
           ∧ σ' = MkState (objs σa) (dicts σa)
                          (log σa ++ [failure_record o e])).
  { unfold observe_and_convert, try_except, bind, lift.
    destruct (cls_observe _ _ _) as [res|e].
    - destruct (to_bool self res σa) as [[[v|e] σ1]|] eqn:Hto; [| |done].
      + intros [= <- <-]. apply to_bool_state in Hto as ->. by left.
      + apply to_bool_state in Hto as ->. intros H.
        destruct (on_exception_cases _ _ _ _ _ _ _ Ho2 H)
          as [[-> ->]|[-> ->]]; [by left|].
        right. by exists e.
    - intros H.
      destruct (on_exception_cases _ _ _ _ _ _ _ Ho2 H)
        as [[-> ->]|[-> ->]]; [by left|].
      right. by exists e. }
  intros H. destruct (Hcases H) as [->|(e & -> & ->)]; simpl.
  - repeat split; try done. by left.
  - repeat split; try done.
    + right. by exists e.
    + by destruct (config_debug w).
Qed.

(** ** The bounds of the period in the statement's own dictionary *)

Lemma with_period_twice w1 w2 (o : stmt_obj (TimePeriod := TimePeriod))
    (kw : dict) :
  with_period rollback w2 o (with_period rollback w1 o kw)
  = with_period rollback w2 o kw.
Proof.
  unfold with_period. destruct (st_period o) as [p|]; [|done].
  apply map_eq. intros key.
  destruct (decide (key = "_end_")) as [->|He].
  { by rewrite !lookup_insert_eq. }
  destruct (decide (key = "_start_")) as [->|Hs].
  { rewrite !(lookup_insert_ne _ "_end_") by done.
    by rewrite !lookup_insert_eq. }
  by rewrite !lookup_insert_ne by done.
Qed.

(** X8: a historical statement with a period that does not use the
    session's parameters keeps [_start_] and [_end_] in its own
    dictionary after an evaluation, while one that uses them keeps its
    dictionary as it was.  Either way the next evaluation is not
    affected: it passes what it would have passed without the earlier
    one. *)
Theorem evaluation_leaves_bounds w σ self o kw r σ' :
  live σ self o kw →
  Statement_bool rollback w self σ = Some (r, σ') →
  live σ' self o (own_after w o kw)
  ∧ (cls_use_global_params (st_class o) = true → own_after w o kw = kw)
  ∧ (∀ period,
       cls_use_global_params (st_class o) = false →
       cls_historical (st_class o) = true →
       st_period o = Some period →
       own_after w o kw
       = <["_end_" := right (rollback period (now w))]>
           (<["_start_" := left (rollback period (now w))]> kw))
  ∧ (∀ w2, passed_kwargs rollback w2 o (own_after w o kw)
           = passed_kwargs rollback w2 o kw).
Proof.
  intros Hl H.
  pose proof (live_after_get_kwargs w _ _ _ _ Hl) as [Ho2 Hd2].
  assert (Hstore : objs σ' = objs σ
                   ∧ dicts σ' = dicts (after_get_kwargs rollback w σ o kw)).
  { rewrite (Statement_bool_spec _ _ _ _ _ _ Hl) in H.
    unfold observe_and_convert, try_except, bind, lift in H.
    destruct (cls_observe _ _ _) as [res|e].
    - destruct (to_bool self res _) as [[[v|e] σ1]|] eqn:Hto; [| |done].
      + injection H as _ <-. by apply to_bool_state in Hto as ->.
      + apply to_bool_state in Hto as ->.
        by destruct (on_exception_cases _ _ _ _ _ _ _ Ho2 H)
          as [[_ ->]|[_ ->]].
    - by destruct (on_exception_cases _ _ _ _ _ _ _ Ho2 H)
        as [[_ ->]|[_ ->]]. }
  destruct Hstore as [Hobjs Hdicts].
  split; [|split; [|split]].
  - split; [rewrite Hobjs; apply Hl | rewrite Hdicts; exact Hd2].
  - intros Hg. unfold own_after. by rewrite Hg.
  - intros period Hg Hh Hp. unfold own_after, passed_kwargs, with_period.
    by rewrite Hg, Hh, Hp.
  - intros w2. unfold own_after, passed_kwargs.
    destruct (cls_use_global_params (st_class o)); [done|].
    destruct (cls_historical (st_class o)); [|done].
    apply with_period_twice.
Qed.

(** ** Equality, evaluation and copies *)

Lemma Statement_bool_store w σ self o kw r σ' :
  live σ self o kw →
  Statement_bool rollback w self σ = Some (r, σ') →
  objs σ' = objs σ
  ∧ dicts σ' = dicts (after_get_kwargs rollback w σ o kw).
Proof.
  intros Hl H.
  pose proof (live_after_get_kwargs w _ _ _ _ Hl) as [Ho2 Hd2].
  rewrite (Statement_bool_spec _ _ _ _ _ _ Hl) in H.
  unfold observe_and_convert, try_except, bind, lift in H.
  destruct (cls_observe _ _ _) as [res|e].
  - destruct (to_bool self res _) as [[[v|e] σ1]|] eqn:Hto; [| |done].
    + injection H as _ <-. by apply to_bool_state in Hto as ->.
    + apply to_bool_state in Hto as ->.
      by destruct (on_exception_cases _ _ _ _ _ _ _ Ho2 H)
        as [[_ ->]|[_ ->]].
  - by destruct (on_exception_cases _ _ _ _ _ _ _ Ho2 H)
      as [[_ ->]|[_ ->]].
Qed.

Lemma dict_eq_size (a b : dict) :
  dict_eq a b = Some true → size a = size b.
Proof.
  unfold dict_eq. destruct (bool_decide (size a = size b)) eqn:E; [|done].
  intros _. by apply bool_decide_eq_true in E.
Qed.

Lemma dict_eq_size_ne (a b : dict) :
  size a ≠ size b → dict_eq a b = Some false.
Proof.
  intros H. unfold dict_eq. by rewrite bool_decide_eq_false_2.
Qed.

(** X9: evaluation changes equality.  A historical statement with a
    period that does not use the session's parameters and had no
    [_start_] among its keyword arguments is, once evaluated, no longer
    equal to a statement it was equal to: the bounds it left in its
    dictionary count in [==]. *)
Theorem evaluation_breaks_equality w σ a oa kwa b ob kwb period r σ' :
  live σ a oa kwa →
  live σ b ob kwb →
  st_kwargs oa ≠ st_kwargs ob →
  cls_comparable (st_class oa) = false
  ∨ cls_comparable (st_class ob) = true →
  cls_use_global_params (st_class oa) = false →
  cls_historical (st_class oa) = true →
  st_period oa = Some period →
  kwa !! "_start_" = None →
  eq_ TimePeriod_eq a (VStmt b) σ = Some (Ok (VBool true), σ) →
  Statement_bool rollback w a σ = Some (r, σ') →
  eq_ TimePeriod_eq a (VStmt b) σ' = Some (Ok (VBool false), σ').
Proof.
  intros Hla Hlb Hne Hc Hg Hh Hp Hstart Heq Hrun.
  assert (Hc' : cls_comparable (st_class oa) = true →
                cls_comparable (st_class ob) = true).
  { intros E. destruct Hc as [Hc|Hc]; [congruence|done]. }
  rewrite (eq_method_spec _ _ _ _ _ _ _ _ Hla Hlb Hc') in Heq.
  unfold same_parameters in Heq.
  destruct (is_instance ob (st_class oa)) eqn:Hi; [|done].
  destruct (args_eq (st_args oa) (st_args ob)) as [x|] eqn:Hx; [|done].
  destruct (dict_eq kwa kwb) as [y|] eqn:Hy; [|done].
  injection Heq as Heq.
  assert (Hsize : size kwa = size kwb).
  { apply dict_eq_size. rewrite Hy. by destruct x, y. }
  destruct (Statement_bool_store _ _ _ _ _ _ _ Hla Hrun) as [Hobjs Hdicts].
  pose proof (live_after_get_kwargs w _ _ _ _ Hla) as [_ Hd2].
  assert (Hla' : live σ' a oa (own_after w oa kwa)).
  { split; [rewrite Hobjs; apply Hla | by rewrite Hdicts]. }
  assert (Hlb' : live σ' b ob kwb).
  { split; [rewrite Hobjs; apply Hlb|]. rewrite Hdicts.
    unfold after_get_kwargs. rewrite Hg. simpl.
    rewrite list_lookup_insert_ne by done. apply Hlb. }
  rewrite (eq_method_spec _ _ _ _ _ _ _ _ Hla' Hlb' Hc'), Hi.
  unfold same_parameters. rewrite Hx.
  rewrite (dict_eq_size_ne (own_after w oa kwa) kwb).
  { by rewrite andb_false_r. }
  unfold own_after, passed_kwargs, with_period. rewrite Hg, Hh, Hp.
  rewrite map_size_insert, (map_size_insert_None _ _ _ Hstart).
  destruct (_ !! "_end_"); simpl; lia.
Qed.

(** An induction principle that reaches the items of a list. *)
Lemma value_nested_ind (P : value → Prop) :
  P VNone → P VNotImplemented → (∀ b, P (VBool b)) → (∀ z, P (VInt z)) →
  (∀ q, P (VFloat q)) → (∀ s, P (VStr s)) →
  (∀ l, Forall P l → P (VList l)) →
  (∀ i, P (VObj i)) → (∀ r, P (VStmt r)) →
  ∀ v, P v.
Proof.
  intros HNone HNI HBool HInt HFloat HStr HList HObj HStmt.
  fix IH 1. intros [| |b|z|q|s|l|i|r].
  - exact HNone.
  - exact HNI.
  - apply HBool.
  - apply HInt.
  - apply HFloat.
  - apply HStr.
  - apply HList.
    induction l as [|x l IHl]; constructor; [apply IH | exact IHl].
  - apply HObj.
  - apply HStmt.
Qed.

Lemma string_compare_refl s : String.compare s s = Eq.
Proof.
  pose proof (String.compare_antisym s s) as H.
  by destruct (String.compare s s).
Qed.

Lemma compare_items_refl l :
  Forall (fun v => item_eq v v = Some true) l →
  compare_items compare Eq_ l l = Some (Ok (VBool true)).
Proof.
  induction 1 as [|x l Hx _ IH]; [done|]. simpl.
  unfold item_eq, eqb in Hx.
  destruct (is_ x x); [exact IH|].
  destruct (compare Eq_ x x) as [[v|]|]; try done.
  by rewrite Hx.
Qed.

(** An item of a container equals itself: the same object is not
    compared. *)
Lemma item_eq_refl v : item_eq v v = Some true.
Proof.
  induction v as [| |b|z|q|s|l IH|i|r] using value_nested_ind;
    try done; unfold item_eq, eqb; simpl.
  - by rewrite Z.compare_refl.
  - by rewrite Z.compare_refl.
  - unfold Qcompare. by rewrite Z.compare_refl.
  - by rewrite string_compare_refl.
  - rewrite Nat.eqb_refl. simpl. by rewrite (compare_items_refl l IH).
  - by rewrite Nat.eqb_refl.
  - by rewrite Nat.eqb_refl.
Qed.

Lemma args_eq_refl l : args_eq l l = Some true.
Proof.
  unfold args_eq. induction l as [|x l IH]; [done|].
  simpl. by rewrite item_eq_refl.
Qed.

Lemma all_true_spec {A} (f : A → option bool) (l : list A) :
  forallb id <$> mapM f l = Some true ↔ Forall (fun x => f x = Some true) l.
Proof.
  induction l as [|x l IH]; simpl.
  { split; [constructor|done]. }
  rewrite Forall_cons, <- IH.
  destruct (f x) as [[]|]; simpl; destruct (mapM f l) as [k|]; simpl;
    (split; [intros H; split; congruence | intros [H1 H2]; congruence]).
Qed.

Lemma dict_eq_true (a b : dict) :
  dict_eq a b = Some true
  ↔ size a = size b
    ∧ ∀ key v, a !! key = Some v →
               ∃ v', b !! key = Some v' ∧ item_eq v v' = Some true.
Proof.
  unfold dict_eq. destruct (bool_decide (size a = size b)) eqn:E.
  - apply bool_decide_eq_true in E.
    rewrite all_true_spec, Forall_forall.
    split.
    + intros H. split; [done|]. intros key v Hk.
      specialize (H (key, v)). unfold same_item in H. simpl in H.
      destruct (b !! key) as [v'|].
      * exists v'. split; [done|]. apply H. by apply elem_of_map_to_list.
      * discriminate H. by apply elem_of_map_to_list.
    + intros [_ H] [key v] Hin. apply elem_of_map_to_list in Hin.
      unfold same_item. simpl.
      by destruct (H key v Hin) as (v' & -> & Hv).
  - apply bool_decide_eq_false in E. split; [done|]. by intros [? _].
Qed.

Lemma dict_eq_refl (kw : dict) : dict_eq kw kw = Some true.
Proof.
  apply dict_eq_true. split; [done|].
  intros key v Hk. exists v. split; [done|]. apply item_eq_refl.
Qed.

(** X10: a copy equals its original, from either side, as long as the
    period equals itself. *)
Theorem copy_equals_original σ self o kw :
  live σ self o kw →
  (∀ period, st_period o = Some period →
             TimePeriod_eq period period = true) →
  ∃ (new : nat) (σ' : state),
    copy self σ = Some (Ok new, σ')
    ∧ new ≠ self
    ∧ eq_ TimePeriod_eq self (VStmt new) σ' = Some (Ok (VBool true), σ')
    ∧ eq_ TimePeriod_eq new (VStmt self) σ' = Some (Ok (VBool true), σ').
Proof.
  intros Hl Hp. pose proof Hl as [Ho Hd].
  pose proof (lookup_lt_live _ _ _ Ho) as Hlo.
  set (c := MkStmt (st_class o) (st_args o) (length (dicts σ)) (st_period o)).
  set (σ' := MkState (objs σ ++ [c]) (dicts σ ++ [kw]) (log σ)).
  assert (Hl1 : live σ' self o kw).
  { split; simpl; by apply lookup_app_l_Some. }
  assert (Hl2 : live σ' (length (objs σ)) c kw).
  { split; simpl; apply lookup_snoc. }
  assert (Hc : cls_comparable (st_class o) = true →
               cls_comparable (st_class o) = true) by done.
  assert (Hper : period_eq TimePeriod_eq (st_period o) (st_period o) = true).
  { unfold period_eq. destruct (st_period o) as [p|]; [by apply Hp|done]. }
  assert (Hinst : is_instance o (st_class o) = true).
  { unfold is_instance. apply bool_decide_eq_true_2. by left. }
  exists (length (objs σ)), σ'.
  split; [by apply copy_spec|]. split; [lia|].
  split.
  - rewrite (eq_method_spec _ _ _ _ _ _ _ _ Hl1 Hl2 Hc).
    unfold same_parameters.
    change (is_instance c (st_class o)) with (is_instance o (st_class o)).
    change (st_args c) with (st_args o).
    change (st_period c) with (st_period o).
    rewrite Hinst, args_eq_refl, dict_eq_refl, Hper.
    by destruct (cls_historical (st_class o)).
  - rewrite (eq_method_spec _ _ _ _ _ _ _ _ Hl2 Hl1 Hc).
    unfold same_parameters.
    change (st_class c) with (st_class o).
    change (st_args c) with (st_args o).
    change (st_period c) with (st_period o).
    rewrite Hinst, args_eq_refl, dict_eq_refl, Hper.
    by destruct (cls_historical (st_class o)).
Qed.

(** ** Re-parameterising in steps *)

(** X11: two calls of [set_params] are one.  Adding arguments and
    bindings in two steps leaves the store that adding the
    concatenated arguments and the merged bindings (the later binding
    of a key winning) leaves in one step. *)
Theorem set_params_compose σ self o kw args1 kwargs1 args2 kwargs2 :
  live (TimePeriod := TimePeriod) σ self o kw →
  ∃ σ1 σ2 : state,
    set_params self args1 kwargs1 σ = Some (Ok tt, σ1)
    ∧ set_params self args2 kwargs2 σ1 = Some (Ok tt, σ2)
    ∧ set_params self (args1 ++ args2) (kwargs2 ∪ kwargs1) σ
      = Some (Ok tt, σ2)
    ∧ live σ2 self
        (MkStmt (st_class o) (st_args o ++ args1 ++ args2) (st_kwargs o)
                (st_period o))
        (kwargs2 ∪ kwargs1 ∪ kw).
Proof.
  intros Hl. pose proof Hl as [Ho Hd].
  pose proof (lookup_lt_live _ _ _ Ho) as Hlo.
  pose proof (lookup_lt_live _ _ _ Hd) as Hld.
  set (o1 := MkStmt (st_class o) (st_args o ++ args1) (st_kwargs o)
                    (st_period o)).
  set (σ1 := MkState (<[self := o1]> (objs σ))
                     (<[st_kwargs o := kwargs1 ∪ kw]> (dicts σ)) (log σ)).
  assert (Hl1 : live σ1 self o1 (kwargs1 ∪ kw)).
  { split; simpl; by apply list_lookup_insert_eq. }
  eexists σ1, _. split; [by apply set_params_spec|].
  split; [by apply (set_params_spec σ1 self o1)|].
  simpl. rewrite !list_insert_insert_eq.
  rewrite <- (assoc_L (++)), (assoc_L (∪)).
  split; [by apply set_params_spec|].
  split; simpl; by apply list_lookup_insert_eq.
Qed.

(** ** Counting *)

(** X12: [to_count] gives the number that [Comparable._to_bool]
    compares, the observation itself if it is a number and its length
    if it has one, and nothing else: on an object that is neither it
    raises a [TypeError]. *)
Theorem to_count_scalar res :
  (is_Some (as_number (scalar_of res)) →
   to_count res = Ok (scalar_of res))
  ∧ (as_number (scalar_of res) = None →
     ∃ e, to_count res = Raise e ∧ exn_type e = TypeError)
  ∧ (∀ v, to_count res = Ok v →
          v = scalar_of res ∧ is_Some (as_number v)).
Proof.
  split; [|split].
  - intros [q Hq]. by destruct res.
  - intros Hn. destruct res; try done; by eexists.
  - intros v Hv. destruct res; try done; injection Hv as <-;
      (split; [done | by eexists]).
Qed.

(** ** Equality with an object that is no statement *)

(** X13: compared by [==] with an object that is no statement, a plain
    or historical statement answers [False] and leaves the store as it
    is, while a comparable statement builds the comparison: a copy of
    itself with the object under [_eq_]. *)
Theorem eq_with_value σ self o kw other :
  live σ self o kw →
  (∀ r, other ≠ VStmt r) →
  eq_ TimePeriod_eq self other σ
  = if cls_comparable (st_class o)
    then Some (Ok (VStmt (length (objs σ))),
               MkState (objs σ ++ [compared o σ])
                       (dicts σ ++ [<["_eq_" := other]> kw]) (log σ))
    else Some (Ok (VBool false), σ).
Proof.
  intros Hl Hv. pose proof Hl as [Ho Hd].
  destruct (cls_comparable (st_class o)) eqn:Hc.
  - rewrite <- (set_comparison_spec _ _ _ _ _ _ Hl).
    rewrite <- (method_eq _ _ _ _ _ Ho).
    exact (method_comparable Eq_ σ self o kw other Hl Hc Hv).
  - assert (Hst : Statement_eq self other σ = Some (Ok (VBool false), σ)).
    { unfold Statement_eq, bind. rewrite (get_obj_live _ _ _ Ho).
      unfold isinstance_of. destruct other; try done. by destruct (Hv ref). }
    unfold eq_, bind at 1. rewrite (get_obj_live _ _ _ Ho), Hc.
    destruct (cls_historical (st_class o)); [|done].
    unfold Historical_eq, bind at 1. rewrite (get_obj_live _ _ _ Ho), Hc.
    unfold bind at 1, isinstance_of.
    destruct other; try done. by destruct (Hv ref).
Qed.

(** ** From the function to the truth value *)

(** X14: a statement made from a function alone is as true as the
    function's result.  For the class [Statement.from_func(func)] and
    an instance made with [args] and [kwargs], the evaluation calls
    [func] with exactly these and, when what it returns is no
    statement, answers its truth value, whatever the session's
    parameters are; the store is left as the constructor left it. *)
Theorem plain_statement_truth id name func args (kwargs : dict) w σ v :
  func args kwargs = Ok v →
  (∀ r, v ≠ VStmt r) →
  ∃ (cls : stmt_class) (new : nat) (σ' : state) (truth : bool),
    from_func Statement id name func false false false = Ok cls
    ∧ new_statement cls args None kwargs σ = Some (Ok new, σ')
    ∧ truthy v = Some truth
    ∧ Statement_bool rollback w new σ' = Some (Ok (VBool truth), σ').
Proof.
  intros Hf Hv.
  set (cls := new_class Statement id name func false false false).
  set (obj := MkStmt (TimePeriod := TimePeriod) cls args
                     (length (dicts σ)) None).
  set (σ' := MkState (objs σ ++ [obj]) (dicts σ ++ [kwargs]) (log σ)).
  assert (Hl : live σ' (length (objs σ)) obj kwargs).
  { split; simpl; apply lookup_snoc. }
  assert (Ht : ∃ truth, truthy v = Some truth).
  { destruct v; try (by eexists). by destruct (Hv ref). }
  destruct Ht as [truth Ht].
  exists cls, (length (objs σ)), σ', truth.
  split; [done|]. split; [done|]. split; [done|].
  rewrite (Statement_bool_spec _ _ _ _ _ _ Hl).
  assert (Hafter : after_get_kwargs rollback w σ' obj kwargs = σ').
  { unfold after_get_kwargs, passed_kwargs. simpl.
    by rewrite insert_snoc. }
  rewrite Hafter.
  unfold observe_and_convert, try_except, bind, lift, passed_kwargs. simpl.
  rewrite Hf.
  rewrite (to_bool_spec _ _ _ _ (proj1 Hl)). simpl.
  unfold Statement_to_bool. by rewrite Ht.
Qed.

(** ** Symmetry of equality *)

Lemma of_comparison_eq_opp c :
  of_comparison Eq_ (CompOpp c) = of_comparison Eq_ c.
Proof. by destruct c. Qed.

Lemma eq_sym_Z (x y : Z) :
  of_comparison Eq_ (x ?= y)%Z = of_comparison Eq_ (y ?= x)%Z.
Proof. by rewrite (Z.compare_antisym x y), of_comparison_eq_opp. Qed.

Lemma eq_sym_Q (x y : Q) :
  of_comparison Eq_ (x ?= y)%Q = of_comparison Eq_ (y ?= x)%Q.
Proof. by rewrite <- (Qcompare_antisym x y), of_comparison_eq_opp. Qed.

Lemma eq_sym_string (x y : string) :
  of_comparison Eq_ (String.compare x y)
  = of_comparison Eq_ (String.compare y x).
Proof. by rewrite (String.compare_antisym x y), of_comparison_eq_opp. Qed.

Lemma is_sym a b : is_ a b = is_ b a.
Proof. destruct a, b; try done; simpl; apply Nat.eqb_sym. Qed.

Lemma compare_items_sym la :
  Forall (fun a => ∀ b, compare Eq_ a b = compare Eq_ b a) la →
  ∀ lb, compare_items compare Eq_ la lb = compare_items compare Eq_ lb la.
Proof.
  induction 1 as [|x la Hx _ IH]; intros [|y lb]; try done.
  simpl. by rewrite (is_sym y x), (Hx y), (IH lb).
Qed.

(** Where both have an answer, [a == b] and [b == a] are the same;
    where one has none the other has none. *)
Lemma compare_eq_sym a : ∀ b, compare Eq_ a b = compare Eq_ b a.
Proof.
  induction a as [| |x|x|x|x|la IH|x|x] using value_nested_ind;
    intros [| |y|y|y|y|lb|y|y]; try done;
    try (by apply (f_equal (fun c => Some (Ok (VBool c))) (eq_sym_Z _ _)));
    try (by apply (f_equal (fun c => Some (Ok (VBool c))) (eq_sym_Q _ _)));
    try (by apply (f_equal (fun c => Some (Ok (VBool c)))
                           (eq_sym_string _ _)));
    try (by simpl; rewrite (Nat.eqb_sym x y); destruct (y =? x)%nat).
  simpl. rewrite (Nat.eqb_sym (length la) (length lb)).
  destruct (negb _); [done|]. by apply compare_items_sym.
Qed.

Lemma item_eq_sym a b : item_eq a b = item_eq b a.
Proof. unfold item_eq, eqb. by rewrite is_sym, compare_eq_sym. Qed.

Lemma args_eq_sym la : ∀ lb, args_eq la lb = args_eq lb la.
Proof.
  unfold args_eq. induction la as [|x la IH]; intros [|y lb]; try done.
  simpl. rewrite (item_eq_sym y x), (IH lb). done.
Qed.

Lemma mapM_None_spec {A B} (f : A → option B) (l : list A) :
  mapM f l = None ↔ Exists (fun x => f x = None) l.
Proof.
  induction l as [|x l IH]; simpl.
  { split; [done|]. by intros H%Exists_nil. }
  rewrite Exists_cons, <- IH.
  destruct (f x) as [y|]; simpl; destruct (mapM f l) as [k|]; simpl;
    (split; [intros H; (by left) || (by right) || done
            | intros [H|H]; done]).
Qed.

Lemma dict_eq_none (a b : dict) :
  dict_eq a b = None
  ↔ size a = size b
    ∧ ∃ key v v', a !! key = Some v ∧ b !! key = Some v'
                  ∧ item_eq v v' = None.
Proof.
  unfold dict_eq. destruct (bool_decide (size a = size b)) eqn:E.
  - apply bool_decide_eq_true in E.
    rewrite fmap_None, mapM_None_spec, Exists_exists.
    split.
    + intros ([key v] & Hin & H). apply elem_of_map_to_list in Hin.
      split; [done|]. unfold same_item in H. simpl in H.
      destruct (b !! key) as [v'|] eqn:Hb; [|done].
      by exists key, v, v'.
    + intros (_ & key & v & v' & Ha & Hb & H).
      exists (key, v). split; [by apply elem_of_map_to_list|].
      unfold same_item. simpl. by rewrite Hb.
  - apply bool_decide_eq_false in E. split; [done|]. by intros [? _].
Qed.

Lemma dict_eq_sym_true (a b : dict) :
  dict_eq a b = Some true → dict_eq b a = Some true.
Proof.
  rewrite !dict_eq_true. intros [Hs H]. split; [done|].
  assert (Hdom : dom a = dom b).
  { apply set_subseteq_size_eq.
    - intros key. rewrite !elem_of_dom. intros [v Hv].
      destruct (H key v Hv) as (v' & Hv' & _). by exists v'.
    - rewrite !size_dom. lia. }
  intros key v Hk.
  assert (Hin : key ∈ dom a) by (rewrite Hdom; apply elem_of_dom; eauto).
  apply elem_of_dom in Hin as [v0 Hv0].
  destruct (H key v0 Hv0) as (v' & Hv' & Hv).
  exists v0. split; [done|].
  rewrite Hk in Hv'. injection Hv' as <-. by rewrite item_eq_sym.
Qed.

Lemma dict_eq_sym_none (a b : dict) :
  dict_eq a b = None → dict_eq b a = None.
Proof.
  rewrite !dict_eq_none. intros (Hs & key & v & v' & Ha & Hb & H).
  split; [done|]. exists key, v', v. by rewrite item_eq_sym.
Qed.

Lemma dict_eq_sym (a b : dict) : dict_eq a b = dict_eq b a.
Proof.
  destruct (dict_eq a b) as [[]|] eqn:Hab,
           (dict_eq b a) as [[]|] eqn:Hba; try done.
  - by rewrite (dict_eq_sym_true _ _ Hab) in Hba.
  - by rewrite (dict_eq_sym_true _ _ Hab) in Hba.
  - by rewrite (dict_eq_sym_true _ _ Hba) in Hab.
  - by rewrite (dict_eq_sym_none _ _ Hba) in Hab.
  - by rewrite (dict_eq_sym_none _ _ Hab) in Hba.
  - by rewrite (dict_eq_sym_none _ _ Hab) in Hba.
Qed.

Lemma acyclic_sym (ca cb : stmt_class) : acyclic ca cb → acyclic cb ca.
Proof. unfold acyclic. intros H Hne Hin Hin'. by apply (H (not_eq_sym Hne)). Qed.

(** X15: between two statements that are both comparable or both not,
    [==] is symmetric as long as [==] on periods is: whenever
    [a == b] has an answer (the arguments are compared without running
    the [==] of a statement held in them), [b == a] has the same
    answer, and both leave the store as it is. *)
Theorem eq_symmetric σ a oa kwa b ob kwb r σ' :
  live σ a oa kwa →
  live σ b ob kwb →
  acyclic (st_class oa) (st_class ob) →
  cls_comparable (st_class oa) = cls_comparable (st_class ob) →
  (cls_id (st_class oa) = cls_id (st_class ob) →
   cls_historical (st_class oa) = cls_historical (st_class ob)) →
  (∀ p q, TimePeriod_eq p q = TimePeriod_eq q p) →
  richcmp TimePeriod_eq Eq_ a (VStmt b) σ = Some (r, σ') →
  richcmp TimePeriod_eq Eq_ b (VStmt a) σ = Some (r, σ')
  ∧ σ' = σ
  ∧ ∃ answer : bool, r = Ok (VBool answer).
Proof.
  intros Hla Hlb Hacyc Hc Hh Hper.
  rewrite (richcmp_eq_same_kind _ _ _ _ _ _ _ _ Hla Hlb Hacyc Hc).
  rewrite (richcmp_eq_same_kind _ _ _ _ _ _ _ _ Hlb Hla
             (acyclic_sym _ _ Hacyc) (eq_sym Hc)).
  rewrite (Nat.eqb_sym (cls_id (st_class ob))).
  destruct (Nat.eqb_spec (cls_id (st_class oa)) (cls_id (st_class ob)))
    as [Hid|Hid].
  - assert (Hsame : same_parameters TimePeriod_eq ob oa kwb kwa
                    = same_parameters TimePeriod_eq oa ob kwa kwb).
    { unfold same_parameters.
      rewrite (args_eq_sym (st_args ob)), (dict_eq_sym kwb kwa), (Hh Hid).
      assert (Hp : period_eq TimePeriod_eq (st_period ob) (st_period oa)
                   = period_eq TimePeriod_eq (st_period oa) (st_period ob)).
      { unfold period_eq. by destruct (st_period oa), (st_period ob). }
      by rewrite Hp. }
    rewrite Hsame.
    destruct (same_parameters _ oa ob kwa kwb) as [x|]; [|done].
    intros [= <- <-]. split; [done|]. split; [done|]. by exists x.
  - intros [= <- <-]. split; [done|]. split; [done|]. by exists false.
Qed.

(** ** Printing *)

(** [repr] of the arguments and of a period is not this file's: both
    are parameters, as is [type(self).__name__]; the items of
    [self.kwargs] are taken in the order the dictionary keeps them. *)
Variable repr : value → string.
Variable repr_period : TimePeriod → string.

(** [s[:-1]] *)
Fixpoint drop_last (s : string) : string :=
  match s with
  | EmptyString => EmptyString
  | String c EmptyString => EmptyString
  | String c s' => String c (drop_last s')
  end.

(** [s[-1]], which is an [IndexError] on the empty string. *)
Fixpoint last_char (s : string) : option ascii :=
  match s with
  | EmptyString => None
  | String c EmptyString => Some c
  | String c s' => last_char s'
  end.

(** The text between the parentheses, as [Statement.__repr__] puts it
    together. *)
Definition param_str (args : list value) (items : list (string * value))
  : string :=
  let arg_str := String.concat ", " (map repr args) in
  let kwargs_str :=
    String.concat ", " (map (fun item => item.1 ++ "=" ++ repr item.2)
                            items) in
  let param_str := "" in
  let param_str := if String.eqb arg_str "" then param_str else arg_str in
  if String.eqb kwargs_str "" then param_str
  else
    let param_str := if String.eqb param_str "" then param_str
                     else param_str ++ ", " in
    param_str ++ kwargs_str.

(** [Statement.__repr__] *)
Definition Statement_repr (cls_name : string) (args : list value)
    (items : list (string * value)) : string :=
  cls_name ++ "(" ++ param_str args items ++ ")".

(** [Historical.__repr__] *)
Definition Historical_repr (cls_name : string) (args : list value)
    (items : list (string * value)) (period : option TimePeriod)
  : Py.result string :=
  let string := Statement_repr cls_name args items in
  match period with
  | Some p =>
      let base_string := drop_last string in
      match last_char base_string with
      | None =>
          Raise (MkExn (UserDefined "IndexError"
                          (UserDefined "LookupError" Exception))
                       "string index out of range")
      | Some c =>
          let base_string := if Ascii.eqb c "(" then base_string
                             else base_string ++ ", " in
          Ok (base_string ++ "period=" ++ repr_period p ++ ")")
      end
  | None => Ok string
  end.

Lemma append_cons x (a b : string) : String x a ++ b = String x (a ++ b).
Proof. done. Qed.

Lemma append_assoc (a b c : string) : (a ++ b) ++ c = a ++ (b ++ c).
Proof.
  induction a as [|x a IH]; [done|]. by rewrite !append_cons, IH.
Qed.

Lemma drop_last_snoc s c : drop_last (s ++ String c "") = s.
Proof.
  induction s as [|x s IH]; [done|]. rewrite append_cons.
  change (drop_last (String x (s ++ String c "")))
    with (match s ++ String c "" with
          | EmptyString => EmptyString
          | _ => String x (drop_last (s ++ String c ""))
          end).
  rewrite IH. by destruct s.
Qed.

Lemma last_char_append s c t :
  last_char (s ++ String c t) = last_char (String c t).
Proof.
  induction s as [|x s IH]; [done|]. rewrite append_cons.
  change (last_char (String x (s ++ String c t)))
    with (match s ++ String c t with
          | EmptyString => Some x
          | _ => last_char (s ++ String c t)
          end).
  rewrite IH. by destruct s.
Qed.

(** X16: a historical statement prints its period as a last keyword
    argument.  After the text of [Statement.__repr__] without its
    closing parenthesis comes [period=...], separated by a comma when
    there are parameters before it; this takes that the parameters do
    not themselves end in an opening parenthesis, which the code takes
    for the absence of parameters.  Without a period the text is that
    of [Statement.__repr__]; an [IndexError] never happens. *)
Theorem Historical_repr_period cls_name args items p :
  last_char (param_str args items) ≠ Some "("%char →
  Historical_repr cls_name args items (Some p)
  = Ok (cls_name ++ "(" ++ param_str args items
          ++ (if String.eqb (param_str args items) "" then "" else ", ")
          ++ "period=" ++ repr_period p ++ ")")
  ∧ Historical_repr cls_name args items None
    = Ok (Statement_repr cls_name args items).
Proof.
  intros Hlast. split; [|done].
  unfold Historical_repr, Statement_repr.
  set (params := param_str args items) in *.
  assert (Hbase : drop_last (cls_name ++ "(" ++ params ++ ")")
                  = cls_name ++ "(" ++ params).
  { rewrite <- (drop_last_snoc (cls_name ++ "(" ++ params) ")").
    by rewrite !append_assoc. }
  rewrite Hbase. clear Hbase. clearbody params.
  destruct params as [|x rest].
  - change (cls_name ++ "(" ++ "") with (cls_name ++ String "(" "").
    rewrite last_char_append. simpl. by rewrite !append_assoc.
  - change (cls_name ++ "(" ++ String x rest)
      with (cls_name ++ String "(" (String x rest)).
    rewrite last_char_append.
    change (last_char (String "(" (String x rest)))
      with (last_char (String x rest)).
    destruct (last_char (String x rest)) as [c|] eqn:Hc.
    + destruct (Ascii.eqb_spec c "(") as [->|_]; [by destruct Hlast|].
      simpl. by rewrite !append_assoc.
    + exfalso. clear -Hc. revert x Hc.
      induction rest as [|y rest IH]; intros x Hc; [done|].
      by apply (IH y).
Qed.

End Operators.

(** ** The further properties at concrete statements *)

(** A comparable class that observes nothing, and a historical class
    that keeps to its own keyword arguments. *)
Definition no_result : stmt_class :=
  new_class Statement 9 "no_result" (fun _ _ => Ok VNone) false true false.
Definition in_window_local : stmt_class :=
  new_class Statement 10 "in_window_local"
    (fun _ kw => Ok (VBool (bool_decide (is_Some (kw !! "_start_")))))
    true false false.

Lemma comparison_builds_copy_witness :
  ∃ σ' : state,
    richcmp Z.eqb Ge_ 0 (VInt 3) (one_statement one_event [] ∅ None)
    = Some (Ok (VStmt 1), σ')
    ∧ live σ' 0 (MkStmt one_event [] 0 None) ∅
    ∧ live σ' 1 (MkStmt one_event [] 1 None) {["_ge_" := VInt 3]}.
Proof.
  destruct (comparison_builds_copy Z.eqb Ge_
              (one_statement one_event [] ∅ None) 0
              (MkStmt one_event [] 0 None) ∅ (VInt 3))
    as (σ' & Hr & _ & Hself & Hnew & _).
  - split; reflexivity.
  - reflexivity.
  - discriminate.
  - exists σ'. split; [exact Hr|]. split; [exact Hself | exact Hnew].
Defined.

Lemma comparisons_chain_witness :
  ∃ (σ1 σ2 : state) (first second : nat) (n : stmt_obj),
    richcmp Z.eqb Gt_ 0 (VInt 1) (one_statement one_event [] ∅ None)
    = Some (Ok (VStmt first), σ1)
    ∧ richcmp Z.eqb Lt_ first (VInt 5) σ1 = Some (Ok (VStmt second), σ2)
    ∧ live σ2 second n {["_lt_" := VInt 5; "_gt_" := VInt 1]}.
Proof.
  destruct (comparisons_chain Z.eqb Gt_ Lt_
              (one_statement one_event [] ∅ None) 0
              (MkStmt one_event [] 0 None) ∅ (VInt 1) (VInt 5))
    as (σ1 & σ2 & first & second & n & H1 & H2 & H3 & _).
  - split; reflexivity.
  - reflexivity.
  - discriminate.
  - discriminate.
  - exists σ1, σ2, first, second, n. split; [exact H1|]. split; [exact H2|].
    exact H3.
Defined.

Lemma comparison_round_trip_witness :
  ∃ σ1 σ2 : state,
    richcmp Z.eqb Ge_ 0 (VInt 1) (one_statement one_event [] ∅ None)
    = Some (Ok (VStmt 1), σ1)
    ∧ Statement_bool past_rollback production 1 σ1
      = Some (Ok (VBool true), σ2).
Proof.
  destruct (comparison_round_trip past_rollback Z.eqb Ge_ production
              (one_statement one_event [] ∅ None) 0
              (MkStmt one_event [] 0 None) ∅ 1 (VList [VObj 7]) 1)
    as (σ1 & σ2 & H1 & H2 & _).
  - split; reflexivity.
  - reflexivity.
  - intros op'. apply lookup_empty.
  - reflexivity.
  - discriminate.
  - reflexivity.
  - exists σ1, σ2. split; [exact H1 | exact H2].
Defined.

Lemma no_operator_means_positive_witness :
  to_bool 0 (VList [VObj 7]) (one_statement one_event [] ∅ None)
  = Some (Ok (VBool true), one_statement one_event [] ∅ None).
Proof.
  apply (no_operator_means_positive
           (one_statement one_event [] ∅ None) 0
           (MkStmt one_event [] 0 None) ∅ (VList [VObj 7]) 1%Q).
  - split; reflexivity.
  - reflexivity.
  - intros op. apply lookup_empty.
  - discriminate.
  - reflexivity.
Defined.

Lemma no_operator_type_error_witness :
  Statement_bool past_rollback production 0
    (one_statement no_result [] ∅ None)
  = Some (Ok (VBool false),
          MkState [MkStmt no_result [] 0 None] [∅]
                  [failure_record (MkStmt no_result [] 0 (None : option Z))
                                  (not_supported Gt_ VNone (VInt 0))]).
Proof.
  apply (no_operator_type_error past_rollback production
           (one_statement no_result [] ∅ None) 0
           (MkStmt no_result [] 0 None) ∅ VNone).
  - split; reflexivity.
  - reflexivity.
  - intros op. apply lookup_empty.
  - reflexivity.
  - reflexivity.
  - discriminate.
Defined.

Lemma bool_returns_boolean_witness :
  ∃ (r : result value) (σ' : state),
    Statement_bool past_rollback production 0
      (one_statement one_event [] {["_eq_" := VStmt 0]} None)
    = Some (r, σ')
    ∧ ∀ v, r = Ok v → ∃ b, v = VBool b.
Proof.
  apply (bool_returns_boolean past_rollback production
           (one_statement one_event [] {["_eq_" := VStmt 0]} None) 0
           (MkStmt one_event [] 0 None) {["_eq_" := VStmt 0]}).
  - split; reflexivity.
  - discriminate.
Defined.

Lemma evaluation_effects_witness :
  let σ := one_statement (failing bad_value) [] ∅ None in
  let σ' := MkState [MkStmt (failing bad_value) [] 0 None] [∅]
              [failure_record (MkStmt (failing bad_value) [] 0
                                      (None : option Z)) bad_value] in
  objs σ' = objs σ
  ∧ (Ok (VBool false) = Ok (VBool true) → log σ' = log σ).
Proof.
  intros σ σ'.
  destruct (evaluation_effects past_rollback production σ 0
              (MkStmt (failing bad_value) [] 0 None) ∅
              (Ok (VBool false)) σ') as (Hobjs & _ & _ & Htrue).
  - split; reflexivity.
  - discriminate.
  - reflexivity.
  - split; [exact Hobjs | exact Htrue].
Defined.

Lemma evaluation_leaves_bounds_witness :
  let o := MkStmt in_window_local [] 0 (Some 60) in
  ∃ σ' : state,
    Statement_bool past_rollback production 0
      (one_statement in_window_local [] ∅ (Some 60))
    = Some (Ok (VBool true), σ')
    ∧ live σ' 0 o {["_end_" := VInt 1000; "_start_" := VInt 940]}.
Proof.
  intros o.
  set (σ' := MkState [o] [{["_end_" := VInt 1000; "_start_" := VInt 940]}]
                     []).
  destruct (evaluation_leaves_bounds past_rollback production
              (one_statement in_window_local [] ∅ (Some 60)) 0 o ∅
              (Ok (VBool true)) σ') as (Hl & _ & Hown & _).
  - split; reflexivity.
  - reflexivity.
  - exists σ'. split; [reflexivity|].
    rewrite (Hown 60 eq_refl eq_refl eq_refl) in Hl. exact Hl.
Defined.

Lemma evaluation_breaks_equality_witness :
  let a := MkStmt in_window_local [] 0 (Some 60) in
  let b := MkStmt in_window_local [] 1 (Some 60) in
  let σ' := MkState [a; b]
              [{["_end_" := VInt 1000; "_start_" := VInt 940]}; ∅] [] in
  eq_ Z.eqb 0 (VStmt 1) (two_statements a b ∅ ∅)
  = Some (Ok (VBool true), two_statements a b ∅ ∅)
  ∧ eq_ Z.eqb 0 (VStmt 1) σ' = Some (Ok (VBool false), σ').
Proof.
  intros a b σ'. split; [reflexivity|].
  apply (evaluation_breaks_equality past_rollback Z.eqb production
           (two_statements a b ∅ ∅) 0 a ∅ 1 b ∅ 60 (Ok (VBool true)) σ').
  - split; reflexivity.
  - split; reflexivity.
  - simpl. lia.
  - left. reflexivity.
  - reflexivity.
  - reflexivity.
  - reflexivity.
  - reflexivity.
  - reflexivity.
  - reflexivity.
Defined.

Lemma copy_equals_original_witness :
  ∃ (new : nat) (σ' : state),
    copy 0 (one_statement in_window [VStr "x"] {["task" := VObj 9]}
                          (Some 60))
    = Some (Ok new, σ')
    ∧ eq_ Z.eqb 0 (VStmt new) σ' = Some (Ok (VBool true), σ')
    ∧ eq_ Z.eqb new (VStmt 0) σ' = Some (Ok (VBool true), σ').
Proof.
  destruct (copy_equals_original Z.eqb
              (one_statement in_window [VStr "x"] {["task" := VObj 9]}
                             (Some 60)) 0
              (MkStmt in_window [VStr "x"] 0 (Some 60))
              {["task" := VObj 9]})
    as (new & σ' & Hc & _ & H1 & H2).
  - split; reflexivity.
  - intros period _. apply Z.eqb_refl.
  - exists new, σ'. split; [exact Hc|]. split; [exact H1 | exact H2].
Defined.

Lemma set_params_compose_witness :
  let σ := one_statement always [VInt 1] {["period" := VStr "daily"]} None in
  ∃ σ1 σ2 : state,
    set_params 0 [VInt 2] {["task" := VObj 9]} σ = Some (Ok tt, σ1)
    ∧ set_params 0 [VInt 3] {["task" := VObj 8]} σ1 = Some (Ok tt, σ2)
    ∧ set_params 0 [VInt 2; VInt 3]
        ({["task" := VObj 8]} ∪ {["task" := VObj 9]}) σ
      = Some (Ok tt, σ2).
Proof.
  intros σ.
  destruct (set_params_compose σ 0 (MkStmt always [VInt 1] 0 None)
              {["period" := VStr "daily"]}
              [VInt 2] {["task" := VObj 9]} [VInt 3] {["task" := VObj 8]})
    as (σ1 & σ2 & H1 & H2 & H3 & _).
  - split; reflexivity.
  - exists σ1, σ2. split; [exact H1|]. split; [exact H2 | exact H3].
Defined.

Lemma eq_with_value_witness :
  eq_ Z.eqb 0 (VInt 3) (one_statement always [] ∅ None)
  = Some (Ok (VBool false), one_statement always [] ∅ None).
Proof.
  apply (eq_with_value Z.eqb (one_statement always [] ∅ None) 0
           (MkStmt always [] 0 None) ∅ (VInt 3)).
  - split; reflexivity.
  - discriminate.
Defined.

Lemma plain_statement_truth_witness :
  ∃ (cls : stmt_class) (new : nat) (σ' : state) (truth : bool),
    from_func Statement 11 "given" (fun args _ => Ok (VList args))
              false false false
    = Ok cls
    ∧ new_statement (TimePeriod := Z) cls [VInt 0] None ∅ (MkState [] [] [])
      = Some (Ok new, σ')
    ∧ truthy (VList [VInt 0]) = Some truth
    ∧ Statement_bool past_rollback production new σ'
      = Some (Ok (VBool truth), σ').
Proof.
  apply (plain_statement_truth past_rollback 11 "given"
           (fun args _ => Ok (VList args)) [VInt 0] ∅ production
           (MkState [] [] []) (VList [VInt 0])).
  - reflexivity.
  - discriminate.
Defined.

Lemma eq_symmetric_witness :
  let a := MkStmt in_window [VInt 1] 0 (Some 60) in
  let b := MkStmt in_window [VFloat 1] 1 (Some 60) in
  let σ := two_statements a b ∅ ∅ in
  richcmp Z.eqb Eq_ 1 (VStmt 0) σ = Some (Ok (VBool true), σ).
Proof.
  intros a b σ.
  apply (eq_symmetric Z.eqb σ 0 a ∅ 1 b ∅ (Ok (VBool true)) σ).
  - split; reflexivity.
  - split; reflexivity.
  - intros Hne. by destruct Hne.
  - reflexivity.
  - reflexivity.
  - apply Z.eqb_sym.
  - reflexivity.
Defined.

(** A [repr] for the examples. *)
Definition repr_example (v : value) : string :=
  match v with
  | VNone => "None"
  | VBool true => "True"
  | VBool false => "False"
  | VStr s => "'" ++ s ++ "'"
  | _ => "<object>"
  end.

Lemma Historical_repr_period_witness :
  Historical_repr repr_example (fun _ => "daily") "TaskFinished" []
    [("task", VStr "fetch")] (Some 60%Z)
  = Ok "TaskFinished(task='fetch', period=daily)".
Proof.
  apply (Historical_repr_period repr_example (fun _ : Z => "daily")
           "TaskFinished" [] [("task", VStr "fetch")] 60%Z).
  discriminate.
Defined.

(** The separator is lost when the parameters end in an opening
    parenthesis, and kept otherwise. *)
Example Historical_repr_parenthesis :
  Historical_repr (fun _ => "Weird(") (fun _ : Z => "daily") "S" [VNone] []
    (Some 60%Z) = Ok "S(Weird(period=daily)"
  ∧ Historical_repr repr_example (fun _ : Z => "daily") "S" [] []
      (Some 60%Z) = Ok "S(period=daily)"
  ∧ Statement_repr repr_example "S" [VNone; VBool true] [("a", VStr "b")]
    = "S(None, True, a='b')".
Proof. vm_compute. repeat split. Qed.
